(** * Dashboard and panel tools of the Directus MCP server

    A shallow embedding of [src/tools/dashboard-tools.ts]: the Zod schemas
    of the eight dashboard tools, their handlers over a backend client, and
    the tool factory that wraps them.  JavaScript values are carried as JSON
    trees, promises as computations in a small error-and-trace monad whose
    trace records every backend-client method call. *)

From Stdlib Require Import String Ascii List ZArith Bool Arith Lia.
From Stdlib Require Import DecimalString DecimalZ.
Import ListNotations.
Local Open Scope list_scope.
Local Open Scope string_scope.

Set Implicit Arguments.
Set Warnings "-register-all".

(* ================================================================= *)
(** ** JavaScript values *)

(** The values that cross the tool boundary are JSON.  Numbers are carried
    as integers: the tools never compute with them, they only forward or
    print them.  An object is an association list in property order. *)
Inductive json : Type :=
| JNull
| JBool (b : bool)
| JNum (n : Z)
| JStr (s : string)
| JArr (items : list json)
| JObj (props : list (string * json)).

(** An object literal, as a handler receives it after validation. *)
Definition obj : Type := list (string * json).

(** A JavaScript value that may be [undefined]. *)
Definition jsval : Type := option json.

(** [o.k]: the first property named [k], or [undefined]. *)
Fixpoint prop (k : string) (o : obj) : jsval :=
  match o with
  | [] => None
  | (k', v) :: rest => if String.eqb k' k then Some v else prop k rest
  end.

(** [const { k, ...rest } = o]: the properties of [o] other than [k]. *)
Definition omit (k : string) (o : obj) : obj :=
  filter (fun kv => negb (String.eqb (fst kv) k)) o.

(* ----------------------------------------------------------------- *)
(** *** Text *)

Definition LF : string := String (ascii_of_nat 10) EmptyString.
Definition DQUOTE : string := String (ascii_of_nat 34) EmptyString.
Definition BACKSLASH : string := String (ascii_of_nat 92) EmptyString.

Definition string_of_Z (z : Z) : string :=
  NilZero.string_of_int (Z.to_int z).

Definition string_of_nat (n : nat) : string := string_of_Z (Z.of_nat n).

Fixpoint join (sep : string) (parts : list string) : string :=
  match parts with
  | [] => EmptyString
  | [p] => p
  | p :: rest => p ++ sep ++ join sep rest
  end.

Definition hex_digit (n : nat) : string :=
  String (ascii_of_nat (if (n <? 10)%nat then (48 + n)%nat else (87 + n)%nat)) EmptyString.

(** The escape of one character inside a JSON string literal. *)
Definition escape_char (c : ascii) : string :=
  let n := nat_of_ascii c in
  if (n =? 34)%nat then BACKSLASH ++ DQUOTE
  else if (n =? 92)%nat then BACKSLASH ++ BACKSLASH
  else if (n =? 8)%nat then BACKSLASH ++ "b"
  else if (n =? 12)%nat then BACKSLASH ++ "f"
  else if (n =? 10)%nat then BACKSLASH ++ "n"
  else if (n =? 13)%nat then BACKSLASH ++ "r"
  else if (n =? 9)%nat then BACKSLASH ++ "t"
  else if (n <? 32)%nat
       then BACKSLASH ++ "u00" ++ hex_digit (n / 16)%nat ++ hex_digit (n mod 16)%nat
  else String c EmptyString.

Fixpoint escape (s : string) : string :=
  match s with
  | EmptyString => EmptyString
  | String c rest => escape_char c ++ escape rest
  end.

Definition quote (s : string) : string := DQUOTE ++ escape s ++ DQUOTE.

(** A double-quoted word inside a longer text. *)
Definition q (word : string) : string := DQUOTE ++ word ++ DQUOTE.

(** [JSON.stringify(value, null, 2)] at the current indentation [ind]. *)
Fixpoint stringify_at (ind : string) (j : json) : string :=
  let inner := ind ++ "  " in
  match j with
  | JNull => "null"
  | JBool true => "true"
  | JBool false => "false"
  | JNum n => string_of_Z n
  | JStr s => quote s
  | JArr [] => "[]"
  | JArr items =>
      "[" ++ LF
      ++ join ("," ++ LF) (map (fun x => inner ++ stringify_at inner x) items)
      ++ LF ++ ind ++ "]"
  | JObj [] => "{}"
  | JObj props =>
      "{" ++ LF
      ++ join ("," ++ LF)
           (map (fun kv => inner ++ quote (fst kv) ++ ": " ++ stringify_at inner (snd kv))
                props)
      ++ LF ++ ind ++ "}"
  end.

Definition JSON_stringify (value : json) : string :=
  stringify_at EmptyString value.

(** [String(v)], the conversion a template literal applies to [${v}]. *)
Fixpoint to_string (j : json) : string :=
  match j with
  | JNull => "null"
  | JBool true => "true"
  | JBool false => "false"
  | JNum n => string_of_Z n
  | JStr s => s
  | JArr items =>
      join "," (map (fun x => match x with JNull => EmptyString | _ => to_string x end)
                    items)
  | JObj _ => "[object Object]"
  end.

Definition template (v : jsval) : string :=
  match v with
  | Some j => to_string j
  | None => "undefined"
  end.

(* ================================================================= *)
(** ** The validation library

    The part of Zod the tools use: [z.string()], [.min(n)], [z.number()],
    [z.boolean()], [z.record()], [z.array(s)], [z.object(shape)],
    [.optional()] and [.describe(text)]. *)

Record ZodIssue : Type := {
  code : string;
  path : list string
}.

Inductive SafeParse (A : Type) : Type :=
| success (data : A)
| failure (issues : list ZodIssue).

Arguments success {A} data.
Arguments failure {A} issues.

(** A schema says what it makes of an absent property ([undefined]) and of
    a present value.  Its output may differ from its input: an object
    schema drops the properties it does not declare. *)
Record ZodType : Type := {
  schema_description : option string;
  parse_undefined : SafeParse jsval;
  parse_value : json -> SafeParse json
}.

Definition issue (c : string) : ZodIssue := {| code := c; path := [] |}.

Definition required : SafeParse jsval := failure [issue "invalid_type"].

Definition under (key : string) (i : ZodIssue) : ZodIssue :=
  {| code := code i; path := key :: path i |}.

Definition z_string : ZodType := {|
  schema_description := None;
  parse_undefined := required;
  parse_value := fun input =>
    match input with
    | JStr s => success (JStr s)
    | _ => failure [issue "invalid_type"]
    end
|}.

(** [z.string().min(n)].  The length is counted in the characters of the
    text as it is carried here; for [min(1)], the only bound the tools
    use, any way of counting agrees: the string must not be empty. *)
Definition z_string_min (n : nat) : ZodType := {|
  schema_description := None;
  parse_undefined := required;
  parse_value := fun input =>
    match input with
    | JStr s => if (n <=? String.length s)%nat then success (JStr s)
                else failure [issue "too_small"]
    | _ => failure [issue "invalid_type"]
    end
|}.

Definition z_number : ZodType := {|
  schema_description := None;
  parse_undefined := required;
  parse_value := fun input =>
    match input with
    | JNum n => success (JNum n)
    | _ => failure [issue "invalid_type"]
    end
|}.

Definition z_boolean : ZodType := {|
  schema_description := None;
  parse_undefined := required;
  parse_value := fun input =>
    match input with
    | JBool b => success (JBool b)
    | _ => failure [issue "invalid_type"]
    end
|}.

(** [z.record(z.any())]: any object, kept as it is. *)
Definition z_record : ZodType := {|
  schema_description := None;
  parse_undefined := required;
  parse_value := fun input =>
    match input with
    | JObj o => success (JObj o)
    | _ => failure [issue "invalid_type"]
    end
|}.

Definition optional (s : ZodType) : ZodType := {|
  schema_description := schema_description s;
  parse_undefined := success None;
  parse_value := parse_value s
|}.

Definition describe (s : ZodType) (text : string) : ZodType := {|
  schema_description := Some text;
  parse_undefined := parse_undefined s;
  parse_value := parse_value s
|}.

(** The issues of a part, reported under the key or index of the part. *)
Definition located {A} (key : string) (r : SafeParse A) : SafeParse A :=
  match r with
  | success a => success a
  | failure iss => failure (map (under key) iss)
  end.

(** A part joined to the parts after it: the whole is invalid as soon as
    one part is, and every issue of every part is reported.  A part that
    came out [undefined] is left out. *)
Definition both {A} (part : SafeParse (option A)) (others : SafeParse (list A))
  : SafeParse (list A) :=
  match part, others with
  | success (Some a), success rest => success (a :: rest)
  | success None, success rest => success rest
  | success _, failure errs => failure errs
  | failure errs, success _ => failure errs
  | failure errs, failure more => failure (errs ++ more)%list
  end.

Definition present {A} (r : SafeParse A) : SafeParse (option A) :=
  match r with
  | success a => success (Some a)
  | failure iss => failure iss
  end.

(** The elements of an array, each under its index. *)
Fixpoint parse_items (s : ZodType) (index : nat) (items : list json)
  : SafeParse (list json) :=
  match items with
  | [] => success []
  | x :: rest =>
      both (located (string_of_nat index) (present (parse_value s x)))
           (parse_items s (S index) rest)
  end.

Definition z_array (s : ZodType) : ZodType := {|
  schema_description := None;
  parse_undefined := required;
  parse_value := fun input =>
    match input with
    | JArr items =>
        match parse_items s 0 items with
        | success outs => success (JArr outs)
        | failure errs => failure errs
        end
    | _ => failure [issue "invalid_type"]
    end
|}.

(** [z.object(shape)] *)
Record ZodObject : Type := { shape : list (string * ZodType) }.

Definition z_object (sh : list (string * ZodType)) : ZodObject := {| shape := sh |}.

(** One declared property: the value the input has for it, or what the
    schema makes of its absence. *)
Definition parse_property (key : string) (s : ZodType) (input : obj)
  : SafeParse (option (string * json)) :=
  located key
    match prop key input with
    | Some x =>
        match parse_value s x with
        | success v => success (Some (key, v))
        | failure iss => failure iss
        end
    | None =>
        match parse_undefined s with
        | success (Some v) => success (Some (key, v))
        | success None => success None
        | failure iss => failure iss
        end
    end.

(** The declared properties, in the order of the shape.  A property the
    input lacks is left out of the output when its schema yields
    [undefined]; properties the shape does not declare are dropped. *)
Fixpoint parse_shape (sh : list (string * ZodType)) (input : obj)
  : SafeParse obj :=
  match sh with
  | [] => success []
  | (key, s) :: rest => both (parse_property key s input) (parse_shape rest input)
  end.

(** [schema.safeParse(input)] of an object schema. *)
Definition safeParse (schema : ZodObject) (input : json) : SafeParse obj :=
  match input with
  | JObj o => parse_shape (shape schema) o
  | _ => failure [issue "invalid_type"]
  end.

(** An object schema used as the schema of a property or of an element. *)
Definition as_type (schema : ZodObject) : ZodType := {|
  schema_description := None;
  parse_undefined := required;
  parse_value := fun input =>
    match safeParse schema input with
    | success o => success (JObj o)
    | failure iss => failure iss
    end
|}.

Coercion as_type : ZodObject >-> ZodType.

(* ================================================================= *)
(** ** Promises and the backend client *)

Inductive error : Type :=
| ZodError (issues : list ZodIssue)
| TypeError (message : string)
| Rejected (reason : json).

Inductive outcome (A : Type) : Type :=
| Resolved (value : A)
| Threw (e : error).

Arguments Resolved {A} value.
Arguments Threw {A} e.

(** One call of a method of the backend client. *)
Record call : Type := {
  method : string;
  arguments : list jsval
}.

(** An asynchronous computation: it settles, and it extends the trace of
    backend-client calls made so far. *)
Definition Promise (A : Type) : Type := list call -> outcome A * list call.

Definition ret {A} (a : A) : Promise A := fun log => (Resolved a, log).

Definition throw {A} (e : error) : Promise A := fun log => (Threw e, log).

Definition bind {A B} (p : Promise A) (k : A -> Promise B) : Promise B :=
  fun log =>
    match p log with
    | (Resolved a, log') => k a log'
    | (Threw e, log') => (Threw e, log')
    end.

Definition try_catch {A} (p : Promise A) (h : error -> Promise A) : Promise A :=
  fun log =>
    match p log with
    | (Resolved a, log') => (Resolved a, log')
    | (Threw e, log') => h e log'
    end.

Definition settle {A} (o : outcome A) : Promise A := fun log => (o, log).

Notation "x <- p ;; k" := (bind p (fun x => k))
  (at level 61, p at next level, right associativity).

(** [schema.parse(input)]: the parsed object, or a thrown [ZodError]. *)
Definition parse (schema : ZodObject) (input : json) : outcome obj :=
  match safeParse schema input with
  | success o => Resolved o
  | failure iss => Threw (ZodError iss)
  end.

(** The backend client interface, one method per operation. *)
Record DirectusClient : Type := {
  listDashboards : jsval -> Promise json;
  getDashboard : jsval -> jsval -> Promise json;
  createDashboard : jsval -> Promise json;
  createDashboards : jsval -> Promise json;
  updateDashboard : jsval -> jsval -> Promise json;
  updateDashboards : jsval -> Promise json;
  deleteDashboard : jsval -> Promise json;
  deleteDashboards : jsval -> Promise json;
  listPanels : jsval -> Promise json;
  getPanel : jsval -> jsval -> Promise json;
  createPanel : jsval -> Promise json;
  createPanels : jsval -> Promise json;
  updatePanel : jsval -> jsval -> Promise json;
  updatePanels : jsval -> Promise json;
  deletePanel : jsval -> Promise json;
  deletePanels : jsval -> Promise json
}.

(** What the backend answers to a call, given the calls before it. *)
Definition backend : Type := list call -> call -> outcome json.

Definition invoke (b : backend) (m : string) (args : list jsval) : Promise json :=
  fun log =>
    let c := {| method := m; arguments := args |} in
    (b log c, (log ++ [c])%list).

(** A client over a backend [b] that records each call, as the mocked
    client of the test-suites does. *)
Definition spy (b : backend) : DirectusClient := {|
  listDashboards := fun a => invoke b "listDashboards" [a];
  getDashboard := fun a1 a2 => invoke b "getDashboard" [a1; a2];
  createDashboard := fun a => invoke b "createDashboard" [a];
  createDashboards := fun a => invoke b "createDashboards" [a];
  updateDashboard := fun a1 a2 => invoke b "updateDashboard" [a1; a2];
  updateDashboards := fun a => invoke b "updateDashboards" [a];
  deleteDashboard := fun a => invoke b "deleteDashboard" [a];
  deleteDashboards := fun a => invoke b "deleteDashboards" [a];
  listPanels := fun a => invoke b "listPanels" [a];
  getPanel := fun a1 a2 => invoke b "getPanel" [a1; a2];
  createPanel := fun a => invoke b "createPanel" [a];
  createPanels := fun a => invoke b "createPanels" [a];
  updatePanel := fun a1 a2 => invoke b "updatePanel" [a1; a2];
  updatePanels := fun a => invoke b "updatePanels" [a];
  deletePanel := fun a => invoke b "deletePanel" [a];
  deletePanels := fun a => invoke b "deletePanels" [a]
|}.

(* ================================================================= *)
(** ** Tool descriptors *)

Record TextContent : Type := {
  type : string;
  text : string
}.

(** The envelope a tool handler resolves to. *)
Record ToolResult : Type := {
  content : list TextContent;
  isError : bool
}.

(** A tool descriptor.  [Args] and [Result] are what the handler takes and
    resolves to, [Message] is the type of the success-message slot. *)
Record Descriptor (Args Result Message : Type) : Type := {
  name : string;
  description : string;
  inputSchema : ZodObject;
  toolsets : list string;
  handler : DirectusClient -> Args -> Promise Result;
  successMessage : Message
}.

(** The object literal given to [createTool]: a handler over the validated
    arguments, resolving to the backend's response; no success message. *)
Definition ToolConfig : Type := Descriptor obj json unit.

(** The object literal given to [createActionTool]: the same, with a
    success message computed from the validated arguments. *)
Definition ActionToolConfig : Type := Descriptor obj json (obj -> outcome string).

(** A registered tool: a handler over the raw arguments, resolving to an
    envelope; the success message is optional. *)
Definition MCPTool : Type := Descriptor json ToolResult (option (obj -> outcome string)).

Definition textResult (t : string) : ToolResult :=
  {| content := [{| type := "text"; text := t |}]; isError := false |}.

Definition errorResult (t : string) : ToolResult :=
  {| content := [{| type := "text"; text := t |}]; isError := true |}.

(** [v.length] *)
Definition length_of (v : jsval) : outcome jsval :=
  match v with
  | None => Threw (TypeError "Cannot read properties of undefined")
  | Some JNull => Threw (TypeError "Cannot read properties of null")
  | Some (JArr items) => Resolved (Some (JNum (Z.of_nat (List.length items))))
  | Some (JStr s) => Resolved (Some (JNum (Z.of_nat (String.length s))))
  | Some _ => Resolved None
  end.

(** The exports of [validators.js] that the tool modules import. *)
Record Validators : Type := {
  UuidSchema : ZodType;
  FieldsSchema : ZodType;
  FilterSchema : ZodType;
  SearchSchema : ZodType;
  SortSchema : ZodType;
  LimitSchema : ZodType;
  OffsetSchema : ZodType;
  MetaSchema : ZodType
}.

Section Tools.

(** The shared validators live in [validators.js]; the tools are studied
    for any validators that module may export. *)
Variable V : Validators.

(** How a caught error is turned into the text of the error envelope. *)
Variable stringify_error : error -> string.

(* ----------------------------------------------------------------- *)
(** *** The tool factory *)

(** Modelled from the spec: [createTool] of [tool-helpers.js], which is not
    among the sources.  It builds the uniform descriptor and wraps the
    handler: validate the input against the schema, forward the validated
    arguments, serialize the response to text (the test-suites fix the text
    as [JSON.stringify(response, null, 2)]); catch whatever is thrown and
    return it stringified in the error envelope. *)
Definition createTool (config : ToolConfig) : MCPTool := {|
  name := name config;
  description := description config;
  inputSchema := inputSchema config;
  toolsets := toolsets config;
  handler := fun client args =>
    try_catch
      (validated <- settle (parse (inputSchema config) args) ;;
       result <- handler config client validated ;;
       ret (textResult (JSON_stringify result)))
      (fun e => ret (errorResult (stringify_error e)));
  successMessage := None
|}.

(** Modelled from the spec: [createActionTool] of [tool-helpers.js], which
    is not among the sources.  As [createTool], but the text of the result
    is the success message of the validated arguments (the test-suites fix
    it for the delete tools), and the descriptor keeps the formatter. *)
Definition createActionTool (config : ActionToolConfig) : MCPTool := {|
  name := name config;
  description := description config;
  inputSchema := inputSchema config;
  toolsets := toolsets config;
  handler := fun client args =>
    try_catch
      (validated <- settle (parse (inputSchema config) args) ;;
       _ <- handler config client validated ;;
       message <- settle (successMessage config validated) ;;
       ret (textResult message))
      (fun e => ret (errorResult (stringify_error e)));
  successMessage := Some (successMessage config)
|}.

(* ----------------------------------------------------------------- *)
(** *** Dashboard schemas *)

Definition ListDashboardsSchema : ZodObject := z_object [
  ("fields", FieldsSchema V);
  ("filter", FilterSchema V);
  ("search", SearchSchema V);
  ("sort", SortSchema V);
  ("limit", LimitSchema V);
  ("offset", OffsetSchema V);
  ("meta", MetaSchema V)
].

Definition GetDashboardSchema : ZodObject := z_object [
  ("id", describe (UuidSchema V) "Dashboard ID (UUID)");
  ("fields", FieldsSchema V);
  ("meta", MetaSchema V)
].

Definition CreateDashboardSchema : ZodObject := z_object [
  ("name", describe (z_string_min 1) "Name of the dashboard");
  ("icon", describe (optional z_string) "Material icon for dashboard");
  ("note", describe (optional z_string) "Descriptive text about the dashboard");
  ("color", describe (optional z_string) "Accent color for the dashboard");
  ("user_created",
     describe (optional (UuidSchema V)) "User that created the dashboard (UUID)");
  ("date_created",
     describe (optional z_string) "When the dashboard was created (ISO 8601)")
].

Definition CreateDashboardsSchema : ZodObject := z_object [
  ("dashboards",
     describe (z_array CreateDashboardSchema) "Array of dashboards to create")
].

Definition UpdateDashboardSchema : ZodObject := z_object [
  ("id", describe (UuidSchema V) "Dashboard ID (UUID) to update");
  ("name", describe (optional z_string) "Name of the dashboard");
  ("icon", describe (optional z_string) "Material icon for dashboard");
  ("note", describe (optional z_string) "Descriptive text about the dashboard");
  ("color", describe (optional z_string) "Accent color for the dashboard")
].

Definition UpdateDashboardsSchema : ZodObject := z_object [
  ("dashboards",
     describe (z_array UpdateDashboardSchema)
       "Array of dashboards to update (each must include id)")
].

Definition DeleteDashboardSchema : ZodObject := z_object [
  ("id", describe (UuidSchema V) "Dashboard ID (UUID) to delete")
].

Definition DeleteDashboardsSchema : ZodObject := z_object [
  ("ids", describe (z_array z_string) "Array of dashboard IDs (UUIDs) to delete")
].

(* ----------------------------------------------------------------- *)
(** *** Dashboard tools

    Each element of the array is [createTool({...})] or
    [createActionTool({...})]; the object literal is named here
    [<tool>_config] and the element [<tool>]. *)

Definition list_dashboards_config : ToolConfig := {|
  name := "list_dashboards";
  description :=
    "List all dashboards that exist in Directus. Supports filtering, sorting, pagination, and search. Example: {filter: {"
    ++ q "name" ++ ": {" ++ q "_contains" ++ ": " ++ q "sales" ++ "}}, sort: ["
    ++ q "-date_created" ++ "], limit: 10}";
  inputSchema := ListDashboardsSchema;
  toolsets := ["dashboards"];
  handler := fun client args => listDashboards client (Some (JObj args));
  successMessage := tt
|}.

Definition list_dashboards : MCPTool := createTool list_dashboards_config.

Definition get_dashboard_config : ToolConfig := {|
  name := "get_dashboard";
  description := "Get a single dashboard by ID from Directus. Optionally specify fields to return and metadata options.";
  inputSchema := GetDashboardSchema;
  toolsets := ["dashboards"];
  handler := fun client args =>
    let id := prop "id" args in
    let params := omit "id" args in
    getDashboard client id (Some (JObj params));
  successMessage := tt
|}.

Definition get_dashboard : MCPTool := createTool get_dashboard_config.

Definition create_dashboard_config : ToolConfig := {|
  name := "create_dashboard";
  description :=
    "Create a new dashboard in Directus. Provide the dashboard data including name and optional configuration. Example: {name: "
    ++ q "Sales Dashboard" ++ ", icon: " ++ q "analytics" ++ ", color: " ++ q "#FF5722"
    ++ ", note: " ++ q "Main sales metrics" ++ "}";
  inputSchema := CreateDashboardSchema;
  toolsets := ["dashboards"];
  handler := fun client args => createDashboard client (Some (JObj args));
  successMessage := tt
|}.

Definition create_dashboard : MCPTool := createTool create_dashboard_config.

Definition create_dashboards_config : ToolConfig := {|
  name := "create_dashboards";
  description :=
    "Create multiple dashboards in Directus at once. More efficient than creating dashboards one by one. Example: {dashboards: [{name: "
    ++ q "Dashboard 1" ++ ", icon: " ++ q "dashboard" ++ "}, {name: " ++ q "Dashboard 2"
    ++ ", icon: " ++ q "analytics" ++ "}]}";
  inputSchema := CreateDashboardsSchema;
  toolsets := ["dashboards"];
  handler := fun client args => createDashboards client (prop "dashboards" args);
  successMessage := tt
|}.

Definition create_dashboards : MCPTool := createTool create_dashboards_config.

Definition update_dashboard_config : ToolConfig := {|
  name := "update_dashboard";
  description :=
    "Update an existing dashboard in Directus. Provide the dashboard ID and fields to update. Example: {id: "
    ++ q "dashboard-uuid" ++ ", name: " ++ q "Updated Dashboard Name" ++ ", color: "
    ++ q "#4CAF50" ++ "}";
  inputSchema := UpdateDashboardSchema;
  toolsets := ["dashboards"];
  handler := fun client args =>
    let id := prop "id" args in
    let data := omit "id" args in
    updateDashboard client id (Some (JObj data));
  successMessage := tt
|}.

Definition update_dashboard : MCPTool := createTool update_dashboard_config.

Definition update_dashboards_config : ToolConfig := {|
  name := "update_dashboards";
  description :=
    "Update multiple dashboards in Directus at once. Each dashboard must include an id field. Example: {dashboards: [{id: "
    ++ q "uuid-1" ++ ", name: " ++ q "Updated Name 1" ++ "}, {id: " ++ q "uuid-2"
    ++ ", color: " ++ q "#FF9800" ++ "}]}";
  inputSchema := UpdateDashboardsSchema;
  toolsets := ["dashboards"];
  handler := fun client args => updateDashboards client (prop "dashboards" args);
  successMessage := tt
|}.

Definition update_dashboards : MCPTool := createTool update_dashboards_config.

Definition delete_dashboard_config : ActionToolConfig := {|
  name := "delete_dashboard";
  description := "Delete a dashboard from Directus by ID. This action cannot be undone.";
  inputSchema := DeleteDashboardSchema;
  toolsets := ["dashboards"];
  handler := fun client args => deleteDashboard client (prop "id" args);
  successMessage := fun args =>
    Resolved ("Dashboard " ++ template (prop "id" args) ++ " deleted successfully")
|}.

Definition delete_dashboard : MCPTool := createActionTool delete_dashboard_config.

Definition delete_dashboards_config : ActionToolConfig := {|
  name := "delete_dashboards";
  description :=
    "Delete multiple dashboards from Directus at once by their IDs. This action cannot be undone. Example: {ids: ["
    ++ q "uuid-1" ++ ", " ++ q "uuid-2" ++ ", " ++ q "uuid-3" ++ "]}";
  inputSchema := DeleteDashboardsSchema;
  toolsets := ["dashboards"];
  handler := fun client args => deleteDashboards client (prop "ids" args);
  successMessage := fun args =>
    match length_of (prop "ids" args) with
    | Resolved n => Resolved (template n ++ " dashboards deleted successfully")
    | Threw e => Threw e
    end
|}.

Definition delete_dashboards : MCPTool := createActionTool delete_dashboards_config.

Definition dashboardTools : list MCPTool := [
  list_dashboards;
  get_dashboard;
  create_dashboard;
  create_dashboards;
  update_dashboard;
  update_dashboards;
  delete_dashboard;
  delete_dashboards
].

(* ----------------------------------------------------------------- *)
(** *** Panel schemas and tools *)

(** Modelled from the spec: the panel schemas of [panel-tools.js], which is
    not among the sources.  The panel set is analogous to the dashboard
    set; the properties and which of them are required are those its
    test-suite exercises. *)
Definition ListPanelsSchema : ZodObject := z_object [
  ("fields", FieldsSchema V);
  ("filter", FilterSchema V);
  ("search", SearchSchema V);
  ("sort", SortSchema V);
  ("limit", LimitSchema V);
  ("offset", OffsetSchema V);
  ("meta", MetaSchema V)
].

(** Modelled from the spec: see [ListPanelsSchema]. *)
Definition GetPanelSchema : ZodObject := z_object [
  ("id", describe (UuidSchema V) "Panel ID (UUID)");
  ("fields", FieldsSchema V);
  ("meta", MetaSchema V)
].

(** Modelled from the spec: see [ListPanelsSchema]. *)
Definition CreatePanelSchema : ZodObject := z_object [
  ("dashboard", describe (UuidSchema V) "Dashboard ID (UUID)");
  ("name", z_string);
  ("icon", optional z_string);
  ("color", optional z_string);
  ("show_header", optional z_boolean);
  ("note", optional z_string);
  ("type", z_string);
  ("position_x", z_number);
  ("position_y", z_number);
  ("width", z_number);
  ("height", z_number);
  ("options", optional z_record);
  ("user_created", optional (UuidSchema V));
  ("date_created", optional z_string)
].

(** Modelled from the spec: see [ListPanelsSchema]. *)
Definition CreatePanelsSchema : ZodObject := z_object [
  ("panels", z_array CreatePanelSchema)
].

(** Modelled from the spec: see [ListPanelsSchema]. *)
Definition UpdatePanelSchema : ZodObject := z_object [
  ("id", describe (UuidSchema V) "Panel ID (UUID) to update");
  ("dashboard", optional (UuidSchema V));
  ("name", optional z_string);
  ("icon", optional z_string);
  ("color", optional z_string);
  ("show_header", optional z_boolean);
  ("note", optional z_string);
  ("type", optional z_string);
  ("position_x", optional z_number);
  ("position_y", optional z_number);
  ("width", optional z_number);
  ("height", optional z_number);
  ("options", optional z_record)
].

(** Modelled from the spec: see [ListPanelsSchema]. *)
Definition UpdatePanelsSchema : ZodObject := z_object [
  ("panels", z_array UpdatePanelSchema)
].

(** Modelled from the spec: see [ListPanelsSchema]. *)
Definition DeletePanelSchema : ZodObject := z_object [
  ("id", describe (UuidSchema V) "Panel ID (UUID) to delete")
].

(** Modelled from the spec: see [ListPanelsSchema]. *)
Definition DeletePanelsSchema : ZodObject := z_object [
  ("ids", z_array z_string)
].

(** Modelled from the spec: the tool array of [panel-tools.js], which is
    not among the sources: one tool per operation, analogous to
    [dashboardTools], each calling the method of the client that the
    test-suite expects, the two delete tools answering with the messages
    the test-suite expects. *)
Definition panelTools : list MCPTool := [
  createTool {|
    name := "list_panels";
    description := "List all panels that exist in Directus.";
    inputSchema := ListPanelsSchema;
    toolsets := ["dashboards"];
    handler := fun client args => listPanels client (Some (JObj args));
    successMessage := tt
  |};
  createTool {|
    name := "get_panel";
    description := "Get a single panel by ID from Directus.";
    inputSchema := GetPanelSchema;
    toolsets := ["dashboards"];
    handler := fun client args =>
      let id := prop "id" args in
      let params := omit "id" args in
      getPanel client id (Some (JObj params));
    successMessage := tt
  |};
  createTool {|
    name := "create_panel";
    description := "Create a new panel in Directus.";
    inputSchema := CreatePanelSchema;
    toolsets := ["dashboards"];
    handler := fun client args => createPanel client (Some (JObj args));
    successMessage := tt
  |};
  createTool {|
    name := "create_panels";
    description := "Create multiple panels in Directus at once.";
    inputSchema := CreatePanelsSchema;
    toolsets := ["dashboards"];
    handler := fun client args => createPanels client (prop "panels" args);
    successMessage := tt
  |};
  createTool {|
    name := "update_panel";
    description := "Update an existing panel in Directus.";
    inputSchema := UpdatePanelSchema;
    toolsets := ["dashboards"];
    handler := fun client args =>
      let id := prop "id" args in
      let data := omit "id" args in
      updatePanel client id (Some (JObj data));
    successMessage := tt
  |};
  createTool {|
    name := "update_panels";
    description := "Update multiple panels in Directus at once.";
    inputSchema := UpdatePanelsSchema;
    toolsets := ["dashboards"];
    handler := fun client args => updatePanels client (prop "panels" args);
    successMessage := tt
  |};
  createActionTool {|
    name := "delete_panel";
    description := "Delete a panel from Directus by ID.";
    inputSchema := DeletePanelSchema;
    toolsets := ["dashboards"];
    handler := fun client args => deletePanel client (prop "id" args);
    successMessage := fun args =>
      Resolved ("Panel " ++ template (prop "id" args) ++ " deleted successfully")
  |};
  createActionTool {|
    name := "delete_panels";
    description := "Delete multiple panels from Directus at once by their IDs.";
    inputSchema := DeletePanelsSchema;
    toolsets := ["dashboards"];
    handler := fun client args => deletePanels client (prop "ids" args);
    successMessage := fun args =>
      match length_of (prop "ids" args) with
      | Resolved n => Resolved (template n ++ " panels deleted successfully")
      | Threw e => Threw e
      end
  |}
].

Definition allTools : list MCPTool := (dashboardTools ++ panelTools)%list.

End Tools.

(* ================================================================= *)
(** ** The documented mapping from tools to backend calls *)

Definition upper (c : ascii) : ascii :=
  let n := nat_of_ascii c in
  if ((97 <=? n) && (n <=? 122))%nat then ascii_of_nat (n - 32) else c.

(** [list_dashboards] names the tool, [listDashboards] the method of the
    client that corresponds to it. *)
Fixpoint camelCase (s : string) : string :=
  match s with
  | EmptyString => EmptyString
  | String c rest =>
      if Ascii.eqb c "_"%char
      then match rest with
           | EmptyString => EmptyString
           | String d rest' => String (upper d) (camelCase rest')
           end
      else String c (camelCase rest)
  end.

(** The documented reshaping of the validated arguments [v] into the
    arguments of the backend call: the whole object; the id followed by
    the rest of the object; the id alone; or the array unwrapped from its
    [dashboards], [panels] or [ids] wrapper. *)
Inductive passes_through (v : obj) : list jsval -> Prop :=
| whole_object : passes_through v [Some (JObj v)]
| id_then_rest : passes_through v [prop "id" v; Some (JObj (omit "id" v))]
| id_alone : passes_through v [prop "id" v]
| unwrapped (wrapper : string) :
    In wrapper ["dashboards"; "panels"; "ids"] ->
    passes_through v [prop wrapper v].

Definition lookup {A} (key : string) (table : list (string * A)) : option A :=
  match find (fun entry => String.eqb (fst entry) key) table with
  | Some entry => Some (snd entry)
  | None => None
  end.

(** Tool by tool, the arguments of the backend call as documented. *)
Definition documented_arguments : list (string * (obj -> list jsval)) := [
  ("list_dashboards", fun v => [Some (JObj v)]);
  ("get_dashboard", fun v => [prop "id" v; Some (JObj (omit "id" v))]);
  ("create_dashboard", fun v => [Some (JObj v)]);
  ("create_dashboards", fun v => [prop "dashboards" v]);
  ("update_dashboard", fun v => [prop "id" v; Some (JObj (omit "id" v))]);
  ("update_dashboards", fun v => [prop "dashboards" v]);
  ("delete_dashboard", fun v => [prop "id" v]);
  ("delete_dashboards", fun v => [prop "ids" v]);
  ("list_panels", fun v => [Some (JObj v)]);
  ("get_panel", fun v => [prop "id" v; Some (JObj (omit "id" v))]);
  ("create_panel", fun v => [Some (JObj v)]);
  ("create_panels", fun v => [prop "panels" v]);
  ("update_panel", fun v => [prop "id" v; Some (JObj (omit "id" v))]);
  ("update_panels", fun v => [prop "panels" v]);
  ("delete_panel", fun v => [prop "id" v]);
  ("delete_panels", fun v => [prop "ids" v])
].

(** The call a tool is documented to make for the validated arguments
    [v]: the correspondingly named method, on the reshaped arguments. *)
Definition documented_call (tool : string) (reshape : obj -> list jsval) (v : obj) : call :=
  {| method := camelCase tool; arguments := reshape v |}.

(** The envelope a tool answers with once the backend has settled the
    call: the serialized response, or the success message where the tool
    has one; the stringified error when anything was thrown. *)
Definition envelope (show : error -> string) (message : option (obj -> outcome string))
    (v : obj) (answer : outcome json) : ToolResult :=
  match answer with
  | Threw e => errorResult (show e)
  | Resolved r =>
      match message with
      | None => textResult (JSON_stringify r)
      | Some format =>
          match format v with
          | Resolved m => textResult m
          | Threw e => errorResult (show e)
          end
      end
  end.

(** The number of ids a raw argument object carries. *)
Definition ids_given (args : json) : option nat :=
  match args with
  | JObj o =>
      match prop "ids" o with
      | Some (JArr ids) => Some (List.length ids)
      | _ => None
      end
  | _ => None
  end.

Definition deleted_one (noun : string) (id : jsval) : string :=
  noun ++ " " ++ template id ++ " deleted successfully".

Definition deleted_many (nouns : string) (n : nat) : string :=
  string_of_nat n ++ " " ++ nouns ++ " deleted successfully".

(** The text a delete tool is documented to answer with, from the raw
    arguments [args] and the validated arguments [v]. *)
Definition deleted_text (tool : string) (args : json) (v : obj) : option string :=
  match lookup tool [
    ("delete_dashboard", Some (deleted_one "Dashboard" (prop "id" v)));
    ("delete_dashboards", option_map (deleted_many "dashboards") (ids_given args));
    ("delete_panel", Some (deleted_one "Panel" (prop "id" v)));
    ("delete_panels", option_map (deleted_many "panels") (ids_given args))
  ] with
  | Some text => text
  | None => None
  end.

(** A property went through the schema [s]: the output is what [s] makes
    of the input, present or absent. *)
Definition validated_by (s : ZodType) (input output : jsval) : Prop :=
  match input with
  | Some x => exists y, parse_value s x = success y /\ output = Some y
  | None => parse_undefined s = success output
  end.

(** The [id] of the validated object [v] is the [id] of the raw object [o]
    as validated by the shared UUID schema. *)
Definition id_validated (V : Validators) (o v : obj) : Prop :=
  validated_by (UuidSchema V) (prop "id" o) (prop "id" v).

(** The tools built by [createActionTool]. *)
Definition delete_tools : list string :=
  ["delete_dashboard"; "delete_dashboards"; "delete_panel"; "delete_panels"].

(** The tools whose arguments name a single resource by its [id]. *)
Definition single_resource_tools : list string :=
  ["get_dashboard"; "update_dashboard"; "delete_dashboard";
   "get_panel"; "update_panel"; "delete_panel"].

(* ================================================================= *)
(** ** Vocabulary for the schemas *)

(** The property names an object schema declares. *)
Definition declared (schema : ZodObject) : list string := map fst (shape schema).

(** The eight schemas of [dashboard-tools.ts]. *)
Definition dashboardSchemas (V : Validators) : list ZodObject := [
  ListDashboardsSchema V;
  GetDashboardSchema V;
  CreateDashboardSchema V;
  CreateDashboardsSchema V;
  UpdateDashboardSchema V;
  UpdateDashboardsSchema V;
  DeleteDashboardSchema V;
  DeleteDashboardsSchema
].

(** The schema [s] makes something of the property [input], present or
    absent. *)
Definition accepts (s : ZodType) (input : jsval) : Prop :=
  exists output, validated_by s input output.

(** A property that is absent or is a string. *)
Definition text_or_absent (p : jsval) : Prop :=
  match p with
  | None => True
  | Some (JStr _) => True
  | Some _ => False
  end.

(** A property that is absent or is a value the schema [s] accepts. *)
Definition absent_or_accepted (s : ZodType) (p : jsval) : Prop :=
  match p with
  | None => True
  | Some x => exists y, parse_value s x = success y
  end.

(** Validating again what a schema has put out changes nothing. *)
Definition idempotent (s : ZodType) : Prop :=
  (forall x y, parse_value s x = success y -> parse_value s y = success y) /\
  (forall d, parse_undefined s = success (Some d) -> parse_value s d = success d).

Definition idempotent_validators (V : Validators) : Prop :=
  Forall idempotent
    [UuidSchema V; FieldsSchema V; FilterSchema V; SearchSchema V;
     SortSchema V; LimitSchema V; OffsetSchema V; MetaSchema V].

(** The optional text properties of [UpdateDashboardSchema]. *)
Definition update_texts : list string := ["name"; "icon"; "note"; "color"].

(** The optional text properties of [CreateDashboardSchema]. *)
Definition create_texts : list string := ["icon"; "note"; "color"; "date_created"].

(* ================================================================= *)
(** ** The documented reshaping and texts, stated on their own

    Relations that say what a property of an object is, what an object
    without one of its properties is, and what the decimal numeral of a
    number is, without the functions the handlers are written with. *)

(** [x] is the value of the first property named [k], or nothing when no
    property is named [k]. *)
Inductive property (k : string) : obj -> jsval -> Prop :=
| property_none : property k [] None
| property_here (x : json) (o : obj) : property k ((k, x) :: o) (Some x)
| property_later (k' : string) (x : json) (o : obj) (r : jsval) :
    k' <> k -> property k o r -> property k ((k', x) :: o) r.

(** [o'] is [o] with every property named [k] taken out, the others in
    their order. *)
Inductive without (k : string) : obj -> obj -> Prop :=
| without_nil : without k [] []
| without_skip (x : json) (o o' : obj) :
    without k o o' -> without k ((k, x) :: o) o'
| without_keep (k' : string) (x : json) (o o' : obj) :
    k' <> k -> without k o o' -> without k ((k', x) :: o) ((k', x) :: o').

(** Tool by tool, the arguments of the backend call for the validated
    arguments [v]: the object as it is; the id, then the object without
    its id; the id alone; the array taken out of its wrapper. *)
Inductive reshaped (v : obj) : string -> list jsval -> Prop :=
| forwards_whole (tool : string) :
    In tool ["list_dashboards"; "create_dashboard"; "list_panels"; "create_panel"] ->
    reshaped v tool [Some (JObj v)]
| splits_id (tool : string) (id : jsval) (rest : obj) :
    In tool ["get_dashboard"; "update_dashboard"; "get_panel"; "update_panel"] ->
    property "id" v id ->
    without "id" v rest ->
    reshaped v tool [id; Some (JObj rest)]
| sends_id (tool : string) (id : jsval) :
    In tool ["delete_dashboard"; "delete_panel"] ->
    property "id" v id ->
    reshaped v tool [id]
| unwraps (tool wrapper : string) (array : jsval) :
    In (tool, wrapper)
       [("create_dashboards", "dashboards"); ("update_dashboards", "dashboards");
        ("delete_dashboards", "ids"); ("create_panels", "panels");
        ("update_panels", "panels"); ("delete_panels", "ids")] ->
    property wrapper v array ->
    reshaped v tool [array].

(** [digits] is the decimal numeral of [n]: it reads as a numeral without
    leading zeros whose value is [n]. *)
Definition reads_as (digits : string) (n : nat) : Prop :=
  exists numeral : Decimal.int,
    NilZero.int_of_string digits = Some numeral /\
    Decimal.norm numeral = numeral /\
    Z.of_int numeral = Z.of_nat n.


(* ================================================================= *)
(** ** Fixtures

    Concrete validators, a concrete backend and concrete inputs, on which
    the statements below are exercised. *)

Module Fixture.

(** Validators that take what the test-suites send through the handlers:
    the UUID validator takes any string, as identifiers such as [dash-1]
    need. *)
Definition lenient : Validators := {|
  UuidSchema := z_string;
  FieldsSchema := optional (z_array z_string);
  FilterSchema := optional z_record;
  SearchSchema := optional z_string;
  SortSchema := optional (z_array z_string);
  LimitSchema := optional z_number;
  OffsetSchema := optional z_number;
  MetaSchema := optional z_string
|}.

Definition show_error (e : error) : string :=
  match e with
  | ZodError _ => "Error: invalid arguments"
  | TypeError m => "TypeError: " ++ m
  | Rejected reason => "Error: " ++ to_string reason
  end.

(** A backend that answers every call with [{ success: true }]. *)
Definition agreeing : backend := fun _ _ => Resolved (JObj [("success", JBool true)]).

(** A backend that answers every call with [{ data: [] }]. *)
Definition empty_handed : backend := fun _ _ => Resolved (JObj [("data", JArr [])]).

(** A backend that rejects every call. *)
Definition failing : backend := fun _ _ => Threw (Rejected (JStr "Service Unavailable")).


End Fixture.


(* ================================================================= *)
(** ** Objects *)

Lemma prop_omit_same (k : string) (o : obj) : prop k (omit k o) = None.
Proof.
  induction o as [|[k' v] o IH]; simpl; [reflexivity|].
  destruct (String.eqb k' k) eqn:E; simpl; [exact IH|].
  rewrite E. exact IH.
Qed.

Lemma prop_omit_other (k k' : string) (o : obj) :
  k' <> k -> prop k' (omit k o) = prop k' o.
Proof.
  intros Hne.
  induction o as [|[k0 v] o IH]; simpl; [reflexivity|].
  destruct (String.eqb k0 k) eqn:E; simpl.
  - apply String.eqb_eq in E. subst k0.
    destruct (String.eqb k k') eqn:E'.
    + apply String.eqb_eq in E'. congruence.
    + exact IH.
  - destruct (String.eqb k0 k'); [reflexivity | exact IH].
Qed.

Lemma omit_incl (k : string) (o : obj) (kv : string * json) :
  In kv (omit k o) <-> In kv o /\ fst kv <> k.
Proof.
  unfold omit. rewrite filter_In. rewrite negb_true_iff.
  split; intros [H1 H2]; split; trivial.
  - intros E. apply String.eqb_eq in E. congruence.
  - apply String.eqb_neq. exact H2.
Qed.

Lemma prop_property (k : string) (o : obj) : property k o (prop k o).
Proof.
  induction o as [|[k' x] o IH]; cbn [prop]; [constructor|].
  destruct (String.eqb k' k) eqn:E.
  - apply String.eqb_eq in E. subst k'. constructor.
  - apply String.eqb_neq in E. constructor; assumption.
Qed.

Lemma property_prop (k : string) (o : obj) (r : jsval) :
  property k o r -> prop k o = r.
Proof.
  induction 1 as [|x o|k' x o r Hne _ IH]; cbn [prop].
  - reflexivity.
  - rewrite String.eqb_refl. reflexivity.
  - apply String.eqb_neq in Hne. rewrite Hne. exact IH.
Qed.

Lemma omit_without (k : string) (o : obj) : without k o (omit k o).
Proof.
  induction o as [|[k' x] o IH]; cbn [omit filter fst]; [constructor|].
  destruct (String.eqb k' k) eqn:E; cbn [negb].
  - apply String.eqb_eq in E. subst k'. constructor. exact IH.
  - apply String.eqb_neq in E. constructor; assumption.
Qed.

(* ================================================================= *)
(** ** Decimal numerals *)

Lemma to_int_normal (z : Z) : Decimal.norm (Z.to_int z) = Z.to_int z.
Proof. rewrite <- (DecimalZ.to_of (Z.to_int z)), DecimalZ.of_to. reflexivity. Qed.

Lemma string_of_Z_reads_back (z : Z) :
  NilZero.int_of_string (string_of_Z z) = Some (Z.to_int z).
Proof.
  unfold string_of_Z. apply NilZero.isi.
  - intros E. pose proof (to_int_normal z) as H. rewrite E in H. discriminate H.
  - intros E. pose proof (to_int_normal z) as H. rewrite E in H. discriminate H.
Qed.

Lemma string_of_nat_reads_as (n : nat) : reads_as (string_of_nat n) n.
Proof.
  exists (Z.to_int (Z.of_nat n)). split; [apply string_of_Z_reads_back|].
  split; [apply to_int_normal | apply DecimalZ.of_to].
Qed.

(** A number has one decimal numeral. *)
Lemma reads_as_unique (d1 d2 : string) (n : nat) :
  reads_as d1 n -> reads_as d2 n -> d1 = d2.
Proof.
  intros (i1 & P1 & N1 & V1) (i2 & P2 & N2 & V2).
  apply NilZero.sis in P1, P2. subst d1 d2. f_equal.
  rewrite <- N1, <- N2. apply DecimalZ.of_iff. congruence.
Qed.

(* ================================================================= *)
(** ** Parsing *)

Lemma both_success {A} (part : SafeParse (option A)) others (out : list A) :
  both part others = success out ->
  exists h rest, part = success h /\ others = success rest /\
    out = match h with Some a => a :: rest | None => rest end.
Proof.
  destruct part as [[a|]|e], others as [rest|e']; simpl; intros H;
    try discriminate; inversion H; eauto.
Qed.

Lemma located_success {A} key (r : SafeParse A) a :
  located key r = success a -> r = success a.
Proof. destruct r; simpl; congruence. Qed.

(** [z.array(z.string())] returns the array it was given. *)
Lemma parse_items_strings (items outs : list json) (index : nat) :
  parse_items z_string index items = success outs ->
  outs = items /\ Forall (fun x => exists s, x = JStr s) items.
Proof.
  revert outs index.
  induction items as [|x items IH]; simpl; intros outs index H.
  - inversion H. split; [reflexivity | constructor].
  - apply both_success in H. destruct H as (h & rest & Hh & Hrest & ->).
    apply located_success in Hh.
    destruct x; simpl in Hh; try discriminate.
    inversion Hh; subst h.
    apply IH in Hrest. destruct Hrest as [-> Hall].
    split; [reflexivity|]. constructor; eauto.
Qed.

Lemma parse_items_strings_ok (items : list string) (index : nat) :
  parse_items z_string index (map JStr items) = success (map JStr items).
Proof.
  revert index. induction items as [|s items IH]; intros index; simpl.
  - reflexivity.
  - rewrite IH. reflexivity.
Qed.

(** A schema made of the single property [ids], an array of strings:
    what it accepts is an object with such an array, returned alone. *)
Lemma parse_ids_shape (s : ZodType) (o v : obj) :
  parse_value s = parse_value (z_array z_string) ->
  (exists iss, parse_undefined s = failure iss) ->
  parse_shape [("ids", s)] o = success v ->
  exists ids, prop "ids" o = Some (JArr ids) /\ v = [("ids", JArr ids)].
Proof.
  intros Hv [iss Hu] H. cbn [parse_shape] in H.
  apply both_success in H. destruct H as (h & rest & Hh & Hrest & ->).
  inversion Hrest; subst rest. clear Hrest.
  unfold parse_property in Hh. apply located_success in Hh.
  destruct (prop "ids" o) as [x|].
  - rewrite Hv in Hh. destruct x; simpl in Hh; try discriminate.
    destruct (parse_items z_string 0 items) as [outs|errs] eqn:E; [|discriminate].
    apply parse_items_strings in E. destruct E as [-> _].
    inversion Hh. eauto.
  - rewrite Hu in Hh. discriminate.
Qed.

(** An object schema puts out no property it does not declare. *)
Lemma parse_shape_undeclared (sh : list (string * ZodType)) (o v : obj) (k : string) :
  parse_shape sh o = success v ->
  ~ In k (map fst sh) ->
  prop k v = None.
Proof.
  revert v. induction sh as [|[key s] sh IH]; intros v H Hk.
  - inversion H. reflexivity.
  - cbn [parse_shape] in H. apply both_success in H.
    destruct H as (h & rest & Hh & Hrest & ->).
    assert (Hrest' : prop k rest = None).
    { apply IH; [exact Hrest|]. intros Hin. apply Hk. right. exact Hin. }
    destruct h as [[key' y]|]; [|exact Hrest'].
    unfold parse_property in Hh. apply located_success in Hh.
    assert (key' = key) as ->.
    { destruct (prop key o) as [x|].
      - destruct (parse_value s x); inversion Hh; reflexivity.
      - destruct (parse_undefined s) as [[y'|]|]; inversion Hh; reflexivity. }
    cbn [prop]. destruct (String.eqb key k) eqn:E; [|exact Hrest'].
    apply String.eqb_eq in E. exfalso. apply Hk. left. exact E.
Qed.

(** The first declared property of an object schema goes through its own
    schema, when no later property has the same name. *)
Lemma parse_shape_first (k : string) (s : ZodType) sh (o v : obj) :
  parse_shape ((k, s) :: sh) o = success v ->
  ~ In k (map fst sh) ->
  validated_by s (prop k o) (prop k v).
Proof.
  intros H Hk. cbn [parse_shape] in H. apply both_success in H.
  destruct H as (h & rest & Hh & Hrest & ->).
  pose proof (parse_shape_undeclared _ _ k Hrest Hk) as Hnone.
  unfold parse_property in Hh. apply located_success in Hh.
  unfold validated_by. destruct (prop k o) as [x|].
  - destruct (parse_value s x) as [y|]; [|discriminate Hh].
    inversion Hh. exists y. cbn [prop]. rewrite String.eqb_refl. split; reflexivity.
  - destruct (parse_undefined s) as [[y|]|]; [| |discriminate Hh]; inversion Hh.
    + cbn [prop]. rewrite String.eqb_refl. reflexivity.
    + rewrite Hnone. reflexivity.
Qed.

(** The elements an array schema puts out are the elements it took in,
    each as validated by the schema of the elements. *)
Lemma parse_items_each (s : ZodType) (items outs : list json) (index : nat) :
  parse_items s index items = success outs ->
  Forall2 (fun x y => parse_value s x = success y) items outs.
Proof.
  revert outs index.
  induction items as [|x items IH]; intros outs index H; cbn [parse_items] in H.
  - inversion H. constructor.
  - apply both_success in H. destruct H as (h & rest & Hh & Hrest & ->).
    apply located_success in Hh. unfold present in Hh.
    destruct (parse_value s x) as [y|] eqn:E; [|discriminate Hh].
    inversion Hh. constructor; [exact E | eapply IH; exact Hrest].
Qed.

(** A schema made of a single required array property. *)
Lemma parse_wrapper_shape (w : string) (s element : ZodType) (o v : obj) :
  parse_value s = parse_value (z_array element) ->
  (exists iss, parse_undefined s = failure iss) ->
  parse_shape [(w, s)] o = success v ->
  exists items outs,
    prop w o = Some (JArr items) /\ v = [(w, JArr outs)] /\
    Forall2 (fun x y => parse_value element x = success y) items outs.
Proof.
  intros Hv [iss Hu] H. cbn [parse_shape] in H.
  apply both_success in H. destruct H as (h & rest & Hh & Hrest & ->).
  inversion Hrest; subst rest. clear Hrest.
  unfold parse_property in Hh. apply located_success in Hh.
  destruct (prop w o) as [x|].
  - rewrite Hv in Hh. destruct x as [ | | | |items| ]; simpl in Hh; try discriminate.
    destruct (parse_items element 0 items) as [outs|errs] eqn:E; [|discriminate].
    apply parse_items_each in E.
    inversion Hh. exists items, outs. auto.
  - rewrite Hu in Hh. discriminate.
Qed.

Lemma documented_arguments_pass_through (tool : string) reshape (v : obj) :
  lookup tool documented_arguments = Some reshape ->
  passes_through v (reshape v).
Proof.
  unfold lookup, documented_arguments. cbn [find fst snd].
  repeat (destruct (String.eqb _ tool);
          [ intros E; inversion E; subst reshape;
            first [ apply whole_object | apply id_then_rest | apply id_alone
                  | apply unwrapped; simpl; tauto ] | ]).
  discriminate.
Qed.

Lemma documented_arguments_reshaped (tool : string) reshape (v : obj) :
  lookup tool documented_arguments = Some reshape ->
  reshaped v tool (reshape v).
Proof.
  unfold lookup, documented_arguments. cbn [find fst snd].
  repeat (destruct (String.eqb _ tool) eqn:E;
          [ apply String.eqb_eq in E; subst tool;
            intros H; inversion H; subst reshape;
            first [ apply forwards_whole; simpl; tauto
                  | apply splits_id;
                    [simpl; tauto | apply prop_property | apply omit_without]
                  | apply sends_id; [simpl; tauto | apply prop_property]
                  | eapply unwraps; [|apply prop_property]; simpl; tauto ]
          | clear E ]).
  discriminate.
Qed.


(* ================================================================= *)
(** ** The tool factory *)

Section Properties.

Variable V : Validators.
Variable show : error -> string.

Lemma createTool_handler (config : ToolConfig) client args log :
  handler (createTool show config) client args log =
  match parse (inputSchema config) args with
  | Threw e => (Resolved (errorResult (show e)), log)
  | Resolved v =>
      match handler config client v log with
      | (Resolved r, log') => (Resolved (textResult (JSON_stringify r)), log')
      | (Threw e, log') => (Resolved (errorResult (show e)), log')
      end
  end.
Proof.
  unfold createTool, try_catch, bind, settle, ret; cbn [handler inputSchema].
  destruct (parse (inputSchema config) args) as [v|e]; [|reflexivity].
  destruct (handler config client v log) as [[r|e] log']; reflexivity.
Qed.

Lemma createActionTool_handler (config : ActionToolConfig) client args log :
  handler (createActionTool show config) client args log =
  match parse (inputSchema config) args with
  | Threw e => (Resolved (errorResult (show e)), log)
  | Resolved v =>
      match handler config client v log with
      | (Resolved _, log') =>
          match successMessage config v with
          | Resolved m => (Resolved (textResult m), log')
          | Threw e => (Resolved (errorResult (show e)), log')
          end
      | (Threw e, log') => (Resolved (errorResult (show e)), log')
      end
  end.
Proof.
  unfold createActionTool, try_catch, bind, settle, ret;
    cbn [handler inputSchema successMessage].
  destruct (parse (inputSchema config) args) as [v|e]; [|reflexivity].
  destruct (handler config client v log) as [[r|e] log']; [|reflexivity].
  destruct (successMessage config v); reflexivity.
Qed.

Ltac each_tool H :=
  unfold allTools, dashboardTools, panelTools in H; cbn [app In] in H;
  repeat (destruct H as [H | H]; [subst | ]); [.. | contradiction H].

Ltac expose :=
  unfold list_dashboards, get_dashboard, create_dashboard, create_dashboards,
    update_dashboard, update_dashboards, delete_dashboard, delete_dashboards,
    list_dashboards_config, get_dashboard_config, create_dashboard_config,
    create_dashboards_config, update_dashboard_config, update_dashboards_config,
    delete_dashboard_config, delete_dashboards_config.

(** Every tool of the two sets validates, then makes the one documented
    call, then answers with the envelope of what the backend settled. *)
Lemma tool_behaviour (t : MCPTool) :
  In t (allTools V show) ->
  exists reshape,
    lookup (name t) documented_arguments = Some reshape /\
    forall b args log,
      handler t (spy b) args log =
      match parse (inputSchema t) args with
      | Threw e => (Resolved (errorResult (show e)), log)
      | Resolved v =>
          let c := documented_call (name t) reshape v in
          (Resolved (envelope show (successMessage t) v (b log c)), (log ++ [c])%list)
      end.
Proof.
  intros Hin. each_tool Hin; expose;
    (eexists; split; [reflexivity|]; intros b args log;
     first [rewrite createTool_handler | rewrite createActionTool_handler];
     cbn [inputSchema handler name successMessage createTool createActionTool];
     match goal with |- context [parse ?s args] => destruct (parse s args) as [v|e] end;
     [|reflexivity];
     cbn [spy listDashboards getDashboard createDashboard createDashboards
          updateDashboard updateDashboards deleteDashboard deleteDashboards
          listPanels getPanel createPanel createPanels updatePanel updatePanels
          deletePanel deletePanels];
     unfold invoke, documented_call, envelope; cbv zeta; cbn [snd];
     cbv delta [jsval obj];
     match goal with
     | |- context [camelCase ?n] =>
         let m := eval vm_compute in (camelCase n) in change (camelCase n) with m
     end;
     match goal with |- context [b log ?c] => destruct (b log c) as [r|e] end;
     try reflexivity;
     match goal with
     | |- context [match ?m with Resolved _ => _ | Threw _ => _ end] => destruct m
     end; reflexivity).
Qed.

(** A validated argument object lets the success message of a delete tool
    be computed. *)
Lemma success_message_resolves (t : MCPTool) format args v :
  In t (allTools V show) ->
  successMessage t = Some format ->
  parse (inputSchema t) args = Resolved v ->
  exists m, format v = Resolved m /\ deleted_text (name t) args v = Some m.
Proof.
  intros Hin Hm Hv. each_tool Hin; expose;
    cbn [successMessage createTool createActionTool] in Hm; try discriminate;
    inversion Hm; subst format; clear Hm;
    cbn [inputSchema name createActionTool] in *.
  1, 3: eexists; split; reflexivity.
  all: unfold parse in Hv; destruct args; cbn [safeParse] in Hv; try discriminate;
    match type of Hv with
    | match ?p with _ => _ end = _ => destruct p as [o|] eqn:E; [|discriminate]
    end;
    inversion Hv; subst o; clear Hv;
    apply parse_ids_shape in E; [| reflexivity | eexists; reflexivity];
    destruct E as (ids & Hids & ->);
    eexists; split; [reflexivity|];
    unfold deleted_text, ids_given; rewrite Hids; reflexivity.
Qed.

Lemma formatter_iff_delete_tool (t : MCPTool) :
  In t (allTools V show) ->
  (exists format, successMessage t = Some format) <-> In (name t) delete_tools.
Proof.
  intros Hin. each_tool Hin; expose;
    cbn [name successMessage createTool createActionTool];
    (split; [intros [format E] | intros E]);
    first [ discriminate E
          | simpl; tauto
          | eexists; reflexivity
          | simpl in E; exfalso; intuition discriminate ].
Qed.

(* ================================================================= *)
(** ** The properties of the tool sets *)

(** C1, as amended.  For every tool of the dashboard and panel sets and
    every argument object its schema validates, one invocation of the
    handler makes a single backend-client call; when the backend answers
    that call with a response, the text of the result is the response
    pretty-printed as JSON for the tools without a success message, and
    the success message of the validated arguments for the delete
    tools. *)
Theorem result_text_of_a_validated_call
    (t : MCPTool) (b : backend) (args : json) (v : obj) (log : list call) (r : json) :
  In t (allTools V show) ->
  parse (inputSchema t) args = Resolved v ->
  exists c,
    snd (handler t (spy b) args log) = (log ++ [c])%list /\
    (b log c = Resolved r ->
     match successMessage t with
     | None =>
         fst (handler t (spy b) args log) = Resolved (textResult (JSON_stringify r))
     | Some format =>
         exists m, format v = Resolved m /\
                   fst (handler t (spy b) args log) = Resolved (textResult m)
     end).
Proof.
  intros Hin Hv.
  destruct (tool_behaviour Hin) as (reshape & _ & Hrun).
  rewrite Hrun, Hv. cbv zeta. cbn [fst snd].
  eexists; split; [reflexivity|]. intros Hr. rewrite Hr. unfold envelope.
  destruct (successMessage t) as [format|] eqn:Hm; [|reflexivity].
  destruct (success_message_resolves args Hin Hm Hv) as (m & Hf & _).
  exists m. rewrite Hf. split; reflexivity.
Qed.

(** C2.  Every tool validates before it forwards: an argument object its
    schema rejects is answered with the error envelope and no backend
    call is made; an argument object its schema accepts is forwarded to
    the backend client in one call.  In particular an object without the
    required id, name or array is rejected by every tool but the two list
    tools (the id being required by the shared UUID validator). *)
Theorem validation_guards_the_backend
    (t : MCPTool) (b : backend) (args : json) (log : list call) :
  In t (allTools V show) ->
  match parse (inputSchema t) args with
  | Threw e =>
      handler t (spy b) args log = (Resolved (errorResult (show e)), log)
  | Resolved v =>
      exists c, snd (handler t (spy b) args log) = (log ++ [c])%list /\
                passes_through v (arguments c)
  end /\
  ((exists iss, parse_undefined (UuidSchema V) = failure iss) ->
   ~ In (name t) ["list_dashboards"; "list_panels"] ->
   exists e, parse (inputSchema t) (JObj []) = Threw e).
Proof.
  intros Hin. split.
  - destruct (tool_behaviour Hin) as (reshape & Hlook & Hrun).
    rewrite Hrun.
    destruct (parse (inputSchema t) args) as [v|e]; [|reflexivity].
    cbv zeta. cbn [snd]. eexists; split; [reflexivity|].
    cbn [arguments documented_call].
    apply documented_arguments_pass_through with (tool := name t). exact Hlook.
  - intros [iss Hu] Hname. each_tool Hin; expose;
      cbn [name inputSchema createTool createActionTool] in *;
      try (exfalso; apply Hname; simpl; tauto);
      unfold parse; cbn [safeParse shape z_object
        GetDashboardSchema CreateDashboardSchema CreateDashboardsSchema
        UpdateDashboardSchema UpdateDashboardsSchema DeleteDashboardSchema
        DeleteDashboardsSchema GetPanelSchema CreatePanelSchema CreatePanelsSchema
        UpdatePanelSchema UpdatePanelsSchema DeletePanelSchema DeletePanelsSchema
        parse_shape];
      unfold parse_property at 1;
      cbn [prop describe parse_undefined z_string_min z_array z_string required];
      try rewrite Hu; cbn [located];
      match goal with
      | |- context [both (failure ?x) ?rest] => destruct rest
      end; cbn [both]; eexists; reflexivity.
Qed.

(** C3.  When the backend call of a validated invocation fails, the tool
    catches the error and answers with it stringified in the error
    envelope; the failed call is the only call made: nothing is retried
    and nothing else is attempted. *)
Theorem backend_failure_is_caught
    (t : MCPTool) (b : backend) (args : json) (v : obj) (log : list call) (e : error) :
  In t (allTools V show) ->
  parse (inputSchema t) args = Resolved v ->
  exists c,
    snd (handler t (spy b) args log) = (log ++ [c])%list /\
    (b log c = Threw e ->
     fst (handler t (spy b) args log)
     = Resolved {| content := [{| type := "text"; text := show e |}];
                   isError := true |}).
Proof.
  intros Hin Hv.
  destruct (tool_behaviour Hin) as (reshape & _ & Hrun).
  rewrite Hrun, Hv. cbv zeta. cbn [fst snd].
  eexists; split; [reflexivity|]. intros He. rewrite He. reflexivity.
Qed.

(** C4.  Every element of the dashboard and panel tool arrays is a
    descriptor with a name, a description, an input schema, toolset tags
    and a handler; the success-message formatter is present on the delete
    tools and on no other tool. *)
Theorem uniform_descriptors (t : MCPTool) :
  In t (allTools V show) ->
  name t <> EmptyString /\
  description t <> EmptyString /\
  toolsets t <> [] /\
  ((exists format, successMessage t = Some format) <-> In (name t) delete_tools).
Proof.
  intros Hin.
  repeat split; try apply (formatter_iff_delete_tool Hin);
    each_tool Hin; expose;
    cbn [name description toolsets createTool createActionTool];
    first [ discriminate | intros E; vm_compute in E; discriminate ].
Qed.


Lemma element_id_validated (schema : ZodObject) (x y : json) :
  (forall input v, safeParse schema input = success v ->
                   exists o, input = JObj o /\ id_validated V o v) ->
  parse_value (as_type schema) x = success y ->
  exists xo yo, x = JObj xo /\ y = JObj yo /\ id_validated V xo yo.
Proof.
  intros Hschema H. cbn [parse_value as_type] in H.
  destruct (safeParse schema x) as [v|] eqn:E; [|discriminate H].
  inversion H. destruct (Hschema _ _ E) as (o & -> & Hid). eauto.
Qed.

(** The sibling schemas do validate their ids: every [id] property that a
    tool schema accepts is validated by the shared UUID schema, the [id]
    of the get, update and delete tools of dashboards and panels, and the
    [id] of every element of the array of the two bulk update tools. *)
Lemma id_parameters_validated_by_UuidSchema :
  (forall schema : ZodObject,
     In schema [GetDashboardSchema V; UpdateDashboardSchema V; DeleteDashboardSchema V;
                GetPanelSchema V; UpdatePanelSchema V; DeletePanelSchema V] ->
     forall (input : json) (v : obj),
       safeParse schema input = success v ->
       exists o, input = JObj o /\ id_validated V o v) /\
  (forall (schema : ZodObject) (wrapper : string),
     In (schema, wrapper) [(UpdateDashboardsSchema V, "dashboards");
                           (UpdatePanelsSchema V, "panels")] ->
     forall (input : json) (v : obj),
       safeParse schema input = success v ->
       exists o items outs,
         input = JObj o /\
         prop wrapper o = Some (JArr items) /\
         prop wrapper v = Some (JArr outs) /\
         Forall2 (fun x y => exists xo yo, x = JObj xo /\ y = JObj yo /\
                                           id_validated V xo yo) items outs).
Proof.
  assert (Hsingle : forall schema : ZodObject,
     In schema [GetDashboardSchema V; UpdateDashboardSchema V; DeleteDashboardSchema V;
                GetPanelSchema V; UpdatePanelSchema V; DeletePanelSchema V] ->
     forall (input : json) (v : obj),
       safeParse schema input = success v ->
       exists o, input = JObj o /\ id_validated V o v).
  { intros schema Hin input v H. cbn [In] in Hin.
    repeat (destruct Hin as [<- | Hin]); try contradiction;
      (destruct input; cbn [safeParse] in H; try discriminate H;
       eexists; split; [reflexivity|];
       apply parse_shape_first in H; [exact H|];
       simpl; intuition discriminate). }
  split; [exact Hsingle|].
  intros schema wrapper Hin input v H. cbn [In] in Hin.
  repeat (destruct Hin as [E | Hin]); try contradiction;
    inversion E; subst schema wrapper; clear E;
    (destruct input as [ | | | | |o]; cbn [safeParse] in H; try discriminate H;
     first
       [ apply parse_wrapper_shape
           with (element := as_type (UpdateDashboardSchema V)) in H;
         [ | reflexivity | eexists; reflexivity ]
       | apply parse_wrapper_shape
           with (element := as_type (UpdatePanelSchema V)) in H;
         [ | reflexivity | eexists; reflexivity ] ];
     destruct H as (items & outs & Hw & -> & Hitems);
     exists o, items, outs;
     split; [reflexivity|]; split; [exact Hw|]; split; [reflexivity|];
     eapply Forall2_impl; [|exact Hitems];
     intros x y Hxy; eapply element_id_validated; [|exact Hxy];
     apply Hsingle; simpl; tauto).
Qed.

(** C6.  For every tool and every validated input, one invocation of the
    handler extends the trace of backend-client calls by exactly one
    call, whatever the backend answers: a call of the method named after
    the tool, whose arguments are the validated arguments passed through
    unchanged but for the documented reshaping, the id taken out of the
    object and passed before it, or the array taken out of its
    [dashboards], [panels] or [ids] wrapper. *)
Theorem exactly_one_backend_call
    (t : MCPTool) (b : backend) (args : json) (v : obj) (log : list call) :
  In t (allTools V show) ->
  parse (inputSchema t) args = Resolved v ->
  exists c,
    snd (handler t (spy b) args log) = (log ++ [c])%list /\
    method c = camelCase (name t) /\
    reshaped v (name t) (arguments c).
Proof.
  intros Hin Hv.
  destruct (tool_behaviour Hin) as (reshape & Hlook & Hrun).
  exists (documented_call (name t) reshape v). split; [|split].
  - rewrite Hrun, Hv. reflexivity.
  - reflexivity.
  - cbn [arguments documented_call].
    apply documented_arguments_reshaped. exact Hlook.
Qed.

(** C7.  The dashboard set is exactly the eight distinctly named tools
    [list_dashboards] ... [delete_dashboards], the panel set the eight
    analogous ones, and each tool calls the method of the backend client
    that is named after it. *)
Theorem one_tool_per_operation :
  map (fun t => name t) (dashboardTools V show)
  = ["list_dashboards"; "get_dashboard"; "create_dashboard"; "create_dashboards";
     "update_dashboard"; "update_dashboards"; "delete_dashboard"; "delete_dashboards"] /\
  map (fun t => name t) (panelTools V show)
  = ["list_panels"; "get_panel"; "create_panel"; "create_panels";
     "update_panel"; "update_panels"; "delete_panel"; "delete_panels"] /\
  NoDup (map (fun t => name t) (allTools V show)) /\
  map (fun t => camelCase (name t)) (allTools V show)
  = ["listDashboards"; "getDashboard"; "createDashboard"; "createDashboards";
     "updateDashboard"; "updateDashboards"; "deleteDashboard"; "deleteDashboards";
     "listPanels"; "getPanel"; "createPanel"; "createPanels";
     "updatePanel"; "updatePanels"; "deletePanel"; "deletePanels"] /\
  forall (t : MCPTool) (b : backend) (args : json) (v : obj) (log : list call),
    In t (allTools V show) ->
    parse (inputSchema t) args = Resolved v ->
    exists c, snd (handler t (spy b) args log) = (log ++ [c])%list /\
              method c = camelCase (name t).
Proof.
  split; [reflexivity|]. split; [reflexivity|]. split.
  - cbn. repeat (constructor; [simpl; intuition discriminate|]). constructor.
  - split; [reflexivity|].
    intros t b args v log Hin Hv.
    destruct (tool_behaviour Hin) as (reshape & _ & Hrun).
    rewrite Hrun, Hv. cbv zeta. cbn [snd].
    eexists; split; reflexivity.
Qed.

(** C8.  The handlers of the single-resource get, update and delete
    tools pass the [id] of their (validated) arguments to the backend
    method as a separate first argument.  The delete handler passes
    nothing else; the get and update handlers pass as second argument the
    rest of the arguments, an object that has no [id] property and in
    which every other property of the arguments is as it was. *)
Theorem id_is_split_off (b : backend) (v : obj) (log : list call) :
  let rest := omit "id" v in
  handler (get_dashboard_config V) (spy b) v log
  = invoke b "getDashboard" [prop "id" v; Some (JObj rest)] log /\
  handler (update_dashboard_config V) (spy b) v log
  = invoke b "updateDashboard" [prop "id" v; Some (JObj rest)] log /\
  handler (delete_dashboard_config V) (spy b) v log
  = invoke b "deleteDashboard" [prop "id" v] log /\
  prop "id" rest = None /\
  (forall k, k <> "id" -> prop k rest = prop k v) /\
  (forall kv, In kv rest <-> In kv v /\ fst kv <> "id").
Proof.
  intros rest.
  split; [reflexivity|]. split; [reflexivity|]. split; [reflexivity|].
  split; [apply prop_omit_same|].
  split; [intros k Hk; apply prop_omit_other; exact Hk|].
  intros kv. apply omit_incl.
Qed.


(** C10.  The schema of [create_dashboard] accepts an object only if its
    [name] is a string of length at least one, and the other properties
    may all be absent: an object with such a name and nothing else is
    accepted as it is.  So [{ name: <empty> }] is rejected and
    [{ name: x }] is accepted. *)
Theorem create_dashboard_requires_a_name :
  (forall (input : json) (v : obj),
     safeParse (CreateDashboardSchema V) input = success v ->
     exists o s, input = JObj o /\ prop "name" o = Some (JStr s) /\
                 (1 <= String.length s)%nat /\ prop "name" v = Some (JStr s)) /\
  (forall s : string,
     (1 <= String.length s)%nat ->
     safeParse (CreateDashboardSchema V) (JObj [("name", JStr s)])
     = success [("name", JStr s)]) /\
  (exists iss,
     safeParse (CreateDashboardSchema V) (JObj [("name", JStr EmptyString)])
     = failure iss) /\
  safeParse (CreateDashboardSchema V) (JObj [("name", JStr "x")])
  = success [("name", JStr "x")].
Proof.
  split; [|split; [|split]].
  - intros input v H. destruct input; cbn [safeParse] in H; try discriminate.
    unfold CreateDashboardSchema in H. cbn [shape z_object parse_shape] in H.
    apply both_success in H. destruct H as (h & rest & Hh & _ & ->).
    unfold parse_property in Hh. apply located_success in Hh.
    destruct (prop "name" props) as [x|] eqn:Hname; [|discriminate Hh].
    destruct x; cbn in Hh; try discriminate Hh.
    destruct (String.length s) as [|n] eqn:Hlen; [discriminate Hh|].
    inversion Hh. exists props, s. rewrite Hlen.
    repeat split; try lia; try assumption; try reflexivity.
  - intros s Hs. cbn. unfold parse_property. cbn.
    destruct (String.length s) as [|n]; [lia|]. reflexivity.
  - eexists. reflexivity.
  - reflexivity.
Qed.

End Properties.

(* ================================================================= *)
(** ** Object schemas, property by property *)

Lemma parse_property_key (key : string) (s : ZodType) (o : obj) k y :
  parse_property key s o = success (Some (k, y)) -> k = key.
Proof.
  unfold parse_property. intros H. apply located_success in H.
  destruct (prop key o) as [x|].
  - destruct (parse_value s x); inversion H; reflexivity.
  - destruct (parse_undefined s) as [[d|]|]; inversion H; reflexivity.
Qed.

Lemma parse_property_agree (key : string) (s : ZodType) (o1 o2 : obj) :
  prop key o1 = prop key o2 -> parse_property key s o1 = parse_property key s o2.
Proof. unfold parse_property. intros ->. reflexivity. Qed.

(** The verdict of an object schema depends on the declared properties of
    the input and on nothing else. *)
Lemma parse_shape_agree (sh : list (string * ZodType)) (o1 o2 : obj) :
  (forall k, In k (map fst sh) -> prop k o1 = prop k o2) ->
  parse_shape sh o1 = parse_shape sh o2.
Proof.
  induction sh as [|[key s] sh IH]; intros H; cbn [parse_shape]; [reflexivity|].
  rewrite (parse_property_agree key s o1 o2), IH; [reflexivity | |].
  - intros k Hk. apply H. right. exact Hk.
  - apply H. left. reflexivity.
Qed.

(** Each declared property of the output is what its own schema made of
    the property of the input. *)
Lemma parse_shape_each (sh : list (string * ZodType)) (o v : obj) :
  NoDup (map fst sh) ->
  parse_shape sh o = success v ->
  forall k s, In (k, s) sh -> validated_by s (prop k o) (prop k v).
Proof.
  revert v. induction sh as [|[key s0] sh IH]; intros v Hnd H k s Hin.
  - contradiction.
  - inversion Hnd as [|? ? Hnotin Hnd']. subst.
    destruct Hin as [E|Hin].
    + inversion E. subst. eapply parse_shape_first; [exact H | exact Hnotin].
    + assert (Hne : String.eqb key k = false).
      { apply String.eqb_neq. intros ->. apply Hnotin.
        change k with (fst (k, s)). apply in_map. exact Hin. }
      cbn [parse_shape] in H. apply both_success in H.
      destruct H as (h & rest & Hh & Hrest & ->).
      pose proof (IH _ Hnd' Hrest k s Hin) as Hk.
      destruct h as [[k' y]|]; [|exact Hk].
      apply parse_property_key in Hh. subst k'.
      cbn [prop]. rewrite Hne. exact Hk.
Qed.

(** An object whose declared properties are each acceptable is accepted:
    no property is judged in the light of another. *)
Lemma parse_shape_complete (sh : list (string * ZodType)) (o : obj) :
  (forall k s, In (k, s) sh -> accepts s (prop k o)) ->
  exists v, parse_shape sh o = success v.
Proof.
  induction sh as [|[key s] sh IH]; intros H; cbn [parse_shape].
  - eexists. reflexivity.
  - destruct IH as [rest Hrest].
    { intros k s' Hin. apply H. right. exact Hin. }
    destruct (H key s (or_introl eq_refl)) as [out Hout].
    unfold parse_property. unfold validated_by in Hout.
    destruct (prop key o) as [x|].
    + destruct Hout as (y & Hy & _). rewrite Hy, Hrest. eexists. reflexivity.
    + rewrite Hout, Hrest. destruct out; eexists; reflexivity.
Qed.

(** What an object schema has put out, it accepts again and puts out
    unchanged, when the schemas of its properties do. *)
Lemma parse_shape_stable (sh : list (string * ZodType)) (o v w : obj) :
  NoDup (map fst sh) ->
  Forall (fun ks => idempotent (snd ks)) sh ->
  parse_shape sh o = success v ->
  (forall k, In k (map fst sh) -> prop k w = prop k v) ->
  parse_shape sh w = success v.
Proof.
  revert v. induction sh as [|[key s] sh IH]; intros v Hnd Hid H Hw.
  - exact H.
  - inversion Hnd as [|? ? Hnotin Hnd']. inversion Hid as [|? ? [Hs1 Hs2] Hid']. subst.
    cbn [snd] in Hs1, Hs2.
    cbn [parse_shape] in H. apply both_success in H.
    destruct H as (h & rest & Hh & Hrest & ->).
    pose proof (Hw key (or_introl eq_refl)) as Hkey.
    cbn [parse_shape].
    destruct h as [[k y]|].
    + pose proof (parse_property_key _ _ _ Hh). subst k.
      cbn [prop] in Hkey. rewrite String.eqb_refl in Hkey.
      assert (Hy : parse_value s y = success y).
      { unfold parse_property in Hh. apply located_success in Hh.
        destruct (prop key o) as [x|].
        - destruct (parse_value s x) as [y'|] eqn:E; inversion Hh. subst y'.
          eapply Hs1. exact E.
        - destruct (parse_undefined s) as [[d|]|]; inversion Hh. subst d.
          apply Hs2. reflexivity. }
      unfold parse_property at 1. rewrite Hkey, Hy. cbn [located].
      rewrite (IH rest); [reflexivity | assumption | assumption | assumption |].
      intros k Hk. rewrite Hw; [|right; exact Hk].
      cbn [prop]. destruct (String.eqb key k) eqn:E; [|reflexivity].
      apply String.eqb_eq in E. subst k. contradiction.
    + rewrite (parse_shape_undeclared _ _ key Hrest Hnotin) in Hkey.
      assert (Hu : parse_undefined s = success None).
      { unfold parse_property in Hh. apply located_success in Hh.
        destruct (prop key o) as [x|].
        - destruct (parse_value s x); inversion Hh.
        - destruct (parse_undefined s) as [[d|]|]; inversion Hh. reflexivity. }
      unfold parse_property at 1. rewrite Hkey, Hu. cbn [located].
      rewrite (IH rest); [reflexivity | assumption | assumption | assumption |].
      intros k Hk. apply Hw. right. exact Hk.
Qed.

Lemma parse_items_stable (s : ZodType) (items outs : list json) :
  idempotent s ->
  Forall2 (fun x y => parse_value s x = success y) items outs ->
  forall index, parse_items s index outs = success outs.
Proof.
  intros [Hs _] H. induction H as [|x y items outs Hxy _ IH]; intros index.
  - reflexivity.
  - cbn [parse_items]. rewrite (Hs _ _ Hxy), IH. reflexivity.
Qed.

Lemma idempotent_z_string : idempotent z_string.
Proof.
  split; [|discriminate].
  intros x y H. destruct x; inversion H. reflexivity.
Qed.

Lemma idempotent_z_string_min (n : nat) : idempotent (z_string_min n).
Proof.
  split; [|discriminate].
  intros x y H. destruct x; cbn in H; try discriminate H.
  destruct (n <=? String.length s)%nat eqn:E; inversion H.
  cbn. rewrite E. reflexivity.
Qed.

Lemma idempotent_z_number : idempotent z_number.
Proof.
  split; [|discriminate].
  intros x y H. destruct x; inversion H. reflexivity.
Qed.

Lemma idempotent_z_record : idempotent z_record.
Proof.
  split; [|discriminate].
  intros x y H. destruct x; inversion H. reflexivity.
Qed.

Lemma idempotent_optional (s : ZodType) : idempotent s -> idempotent (optional s).
Proof. intros [H _]. split; [exact H | discriminate]. Qed.

Lemma idempotent_describe (s : ZodType) (text : string) :
  idempotent s -> idempotent (describe s text).
Proof. intros H. exact H. Qed.

Lemma idempotent_z_array (s : ZodType) : idempotent s -> idempotent (z_array s).
Proof.
  intros Hs. split; [|discriminate].
  intros x y H. destruct x; cbn in H; try discriminate H.
  destruct (parse_items s 0 items) as [outs|] eqn:E; inversion H.
  apply parse_items_each in E.
  cbn. rewrite (parse_items_stable Hs E). reflexivity.
Qed.

Lemma idempotent_as_type (schema : ZodObject) :
  NoDup (declared schema) ->
  Forall (fun ks => idempotent (snd ks)) (shape schema) ->
  idempotent (as_type schema).
Proof.
  intros Hnd Hid. split; [|discriminate].
  intros x y H. cbn [parse_value as_type] in *.
  destruct (safeParse schema x) as [v|] eqn:E; inversion H.
  destruct x; cbn [safeParse] in E; try discriminate E.
  cbn [safeParse].
  rewrite (@parse_shape_stable _ _ _ v Hnd Hid E); reflexivity.
Qed.

Lemma accepts_optional_text (text : string) (p : jsval) :
  accepts (describe (optional z_string) text) p <-> text_or_absent p.
Proof.
  unfold accepts, validated_by, text_or_absent. split.
  - intros [out H]. destruct p as [x|]; [|exact I].
    destruct H as (y & Hy & _). destruct x; cbn in Hy; try discriminate Hy. exact I.
  - intros H. destruct p as [x|].
    + destruct x; try contradiction. eexists. eexists. split; reflexivity.
    + eexists. reflexivity.
Qed.

Lemma validated_optional_text (text : string) (p out : jsval) :
  validated_by (describe (optional z_string) text) p out -> out = p.
Proof.
  unfold validated_by. destruct p as [x|].
  - intros (y & Hy & ->). destruct x; cbn in Hy; try discriminate Hy.
    inversion Hy. reflexivity.
  - cbn. intros H. inversion H. reflexivity.
Qed.

Lemma strings_are_mapped (items : list json) :
  Forall (fun x => exists s, x = JStr s) items ->
  exists ids, items = map JStr ids.
Proof.
  induction 1 as [|x items [s ->] _ [ids ->]].
  - exists []. reflexivity.
  - exists (s :: ids). reflexivity.
Qed.

(* ================================================================= *)
(** ** The dashboard schemas *)

Section DashboardSchemas.

Variable V : Validators.

Lemma dashboardSchemas_NoDup (schema : ZodObject) :
  In schema (dashboardSchemas V) -> NoDup (declared schema).
Proof.
  intros Hin. unfold dashboardSchemas in Hin. cbn [In] in Hin.
  repeat (destruct Hin as [<- | Hin]); try contradiction;
    cbn; repeat (constructor; [simpl; intuition discriminate|]); constructor.
Qed.

Ltac each_property tac :=
  repeat (apply Forall_cons; [cbn [snd]; tac|]); apply Forall_nil.

Lemma create_shape_idempotent :
  idempotent (UuidSchema V) ->
  Forall (fun ks => idempotent (snd ks)) (shape (CreateDashboardSchema V)).
Proof.
  intros HU. cbn [shape CreateDashboardSchema z_object].
  each_property ltac:(
    apply idempotent_describe;
    first [ apply idempotent_z_string_min
          | apply idempotent_optional; first [exact HU | apply idempotent_z_string] ]).
Qed.

Lemma update_shape_idempotent :
  idempotent (UuidSchema V) ->
  Forall (fun ks => idempotent (snd ks)) (shape (UpdateDashboardSchema V)).
Proof.
  intros HU. cbn [shape UpdateDashboardSchema z_object].
  each_property ltac:(
    apply idempotent_describe;
    first [ exact HU | apply idempotent_optional; apply idempotent_z_string ]).
Qed.

Lemma dashboardSchemas_idempotent (schema : ZodObject) :
  idempotent_validators V ->
  In schema (dashboardSchemas V) ->
  Forall (fun ks => idempotent (snd ks)) (shape schema).
Proof.
  unfold idempotent_validators. intros HV Hin.
  repeat match goal with
         | H : Forall _ (_ :: _) |- _ => inversion H; clear H; subst
         end.
  unfold dashboardSchemas in Hin. cbn [In] in Hin.
  repeat (destruct Hin as [<- | Hin]); try contradiction.
  - cbn [shape ListDashboardsSchema z_object]. each_property assumption.
  - cbn [shape GetDashboardSchema z_object].
    each_property ltac:(first [assumption | apply idempotent_describe; assumption]).
  - apply create_shape_idempotent. assumption.
  - cbn [shape CreateDashboardsSchema z_object].
    each_property ltac:(apply idempotent_describe, idempotent_z_array,
                          idempotent_as_type;
      [ apply dashboardSchemas_NoDup; unfold dashboardSchemas; simpl; tauto
      | apply create_shape_idempotent; assumption ]).
  - apply update_shape_idempotent. assumption.
  - cbn [shape UpdateDashboardsSchema z_object].
    each_property ltac:(apply idempotent_describe, idempotent_z_array,
                          idempotent_as_type;
      [ apply dashboardSchemas_NoDup; unfold dashboardSchemas; simpl; tauto
      | apply update_shape_idempotent; assumption ]).
  - cbn [shape DeleteDashboardSchema z_object].
    each_property ltac:(apply idempotent_describe; assumption).
  - cbn [shape DeleteDashboardsSchema z_object].
    each_property ltac:(apply idempotent_describe, idempotent_z_array,
                          idempotent_z_string).
Qed.

Lemma created_name_is_not_empty (x : json) (yo : obj) :
  safeParse (CreateDashboardSchema V) x = success yo ->
  exists name, prop "name" yo = Some (JStr name) /\ name <> EmptyString.
Proof.
  intros H. destruct x as [ | | | | |o]; cbn [safeParse] in H; try discriminate H.
  apply parse_shape_first in H; [|simpl; intuition discriminate].
  unfold validated_by in H. destruct (prop "name" o) as [x|]; [|discriminate H].
  destruct H as (y & Hy & ->). destruct x; cbn in Hy; try discriminate Hy.
  destruct s as [|c s]; cbn in Hy; [discriminate Hy|].
  inversion Hy. eexists. split; [reflexivity | discriminate].
Qed.

Lemma accepted_property_by_property_parts (schema : ZodObject) (o : obj) :
  In schema (dashboardSchemas V) ->
  ((exists v, safeParse schema (JObj o) = success v) <->
   (forall k s, In (k, s) (shape schema) -> accepts s (prop k o))) /\
  (forall v, safeParse schema (JObj o) = success v ->
     forall k s, In (k, s) (shape schema) -> validated_by s (prop k o) (prop k v)).
Proof.
  intros Hin. pose proof (dashboardSchemas_NoDup Hin) as Hnd.
  cbn [safeParse]. split; [split|].
  - intros [v H] k s Hks. exists (prop k v). eapply parse_shape_each; eassumption.
  - apply parse_shape_complete.
  - intros v H k s Hks. eapply parse_shape_each; eassumption.
Qed.

(** X4.  When validating twice changes nothing for the shared validators,
    it changes nothing for the dashboard schemas: the validated object is
    accepted again and comes out as it is. *)
Theorem validation_is_idempotent (schema : ZodObject) (input : json) (v : obj) :
  idempotent_validators V ->
  In schema (dashboardSchemas V) ->
  safeParse schema input = success v ->
  safeParse schema (JObj v) = success v.
Proof.
  intros HV Hin H.
  destruct input as [ | | | | |o]; cbn [safeParse] in H; try discriminate H.
  cbn [safeParse].
  eapply parse_shape_stable;
    [ apply dashboardSchemas_NoDup, Hin
    | apply dashboardSchemas_idempotent; assumption
    | exact H
    | reflexivity ].
Qed.

(** X5.  [DeleteDashboardsSchema] accepts exactly the objects whose [ids]
    is an array of strings, the empty array included, and puts out that
    array alone, in the same order and with its repetitions; the handler
    of [delete_dashboards] sends it to the backend as it is and the
    success message is the decimal numeral of the number of its elements
    followed by [dashboards deleted successfully]. *)
Theorem bulk_delete_takes_any_strings (input : json) (v : obj) :
  (safeParse DeleteDashboardsSchema input = success v <->
   exists o ids, input = JObj o /\
                 property "ids" o (Some (JArr (map JStr ids))) /\
                 v = [("ids", JArr (map JStr ids))]) /\
  (forall (ids : list string) (b : backend) (log : list call),
     handler delete_dashboards_config (spy b) [("ids", JArr (map JStr ids))] log
     = invoke b "deleteDashboards" [Some (JArr (map JStr ids))] log /\
     exists digits,
       reads_as digits (List.length ids) /\
       successMessage delete_dashboards_config [("ids", JArr (map JStr ids))]
       = Resolved (digits ++ " dashboards deleted successfully")).
Proof.
  split; [split|].
  - intros H. destruct input as [ | | | | |o]; cbn [safeParse] in H; try discriminate H.
    assert (Hitems : exists items, prop "ids" o = Some (JArr items) /\
                                   v = [("ids", JArr items)] /\
                                   Forall (fun x => exists s, x = JStr s) items).
    { cbn [shape DeleteDashboardsSchema z_object parse_shape] in H.
      apply both_success in H. destruct H as (h & rest & Hh & Hrest & ->).
      inversion Hrest; subst rest; clear Hrest.
      unfold parse_property in Hh. apply located_success in Hh.
      destruct (prop "ids" o) as [x|]; [|discriminate Hh].
      destruct x as [ | | | |items| ]; cbn in Hh; try discriminate Hh.
      destruct (parse_items z_string 0 items) as [outs|] eqn:E; [|discriminate Hh].
      apply parse_items_strings in E. destruct E as [-> Hall].
      inversion Hh. eauto. }
    destruct Hitems as (items & Hids & -> & Hall).
    destruct (strings_are_mapped Hall) as [ids ->].
    exists o, ids. split; [reflexivity|]. split; [|reflexivity].
    rewrite <- Hids. apply prop_property.
  - intros (o & ids & -> & Hids & ->). apply property_prop in Hids.
    cbn [safeParse shape DeleteDashboardsSchema z_object parse_shape].
    unfold parse_property. rewrite Hids. cbn [describe parse_value z_array].
    rewrite parse_items_strings_ok. reflexivity.
  - intros ids b log. split; [reflexivity|].
    exists (string_of_nat (List.length ids)).
    split; [apply string_of_nat_reads_as|].
    cbn. rewrite length_map. reflexivity.
Qed.

(** X6.  [CreateDashboardsSchema] requires an array and validates each of
    its elements as [create_dashboard] would: the validated array has one
    dashboard for each element given, each with a name that is not empty,
    and an element without such a name makes the whole call invalid.  The
    handler of [create_dashboards] sends the validated array. *)
Theorem bulk_create_validates_each (input : json) (v : obj) :
  safeParse (CreateDashboardsSchema V) input = success v ->
  exists o items outs,
    input = JObj o /\
    prop "dashboards" o = Some (JArr items) /\
    v = [("dashboards", JArr outs)] /\
    Forall2 (fun x y => exists yo name,
               y = JObj yo /\
               safeParse (CreateDashboardSchema V) x = success yo /\
               prop "name" yo = Some (JStr name) /\ name <> EmptyString)
            items outs /\
    (forall (b : backend) (log : list call),
       handler (create_dashboards_config V) (spy b) v log
       = invoke b "createDashboards" [Some (JArr outs)] log).
Proof.
  intros H. destruct input as [ | | | | |o]; cbn [safeParse] in H; try discriminate H.
  apply parse_wrapper_shape
    with (element := as_type (CreateDashboardSchema V)) in H;
    [ | reflexivity | eexists; reflexivity ].
  destruct H as (items & outs & Hw & -> & Hitems).
  exists o, items, outs.
  split; [reflexivity|]. split; [exact Hw|]. split; [reflexivity|]. split.
  - eapply Forall2_impl; [|exact Hitems].
    intros x y Hxy. cbn [parse_value as_type] in Hxy.
    destruct (safeParse (CreateDashboardSchema V) x) as [yo|] eqn:E; [|discriminate Hxy].
    inversion Hxy. destruct (created_name_is_not_empty x E) as (name & Hname & Hne).
    exists yo, name. auto.
  - intros b log. reflexivity.
Qed.

(** X7.  [UpdateDashboardSchema] accepts an object exactly when its [id]
    is acceptable to the shared UUID schema and each of [name], [icon],
    [note] and [color] is absent or a string (an empty name included).
    The handler of [update_dashboard] then sends, beside the id, an
    object that holds those of the four properties the input has, as the
    input has them, and nothing else. *)
Theorem update_schema_characterized (o : obj) :
  ((exists v, safeParse (UpdateDashboardSchema V) (JObj o) = success v) <->
   accepts (UuidSchema V) (prop "id" o) /\
   Forall (fun k => text_or_absent (prop k o)) update_texts) /\
  (forall v, safeParse (UpdateDashboardSchema V) (JObj o) = success v ->
     (forall (b : backend) (log : list call),
        handler (update_dashboard_config V) (spy b) v log
        = invoke b "updateDashboard" [prop "id" v; Some (JObj (omit "id" v))] log) /\
     (forall k, In k update_texts -> prop k (omit "id" v) = prop k o) /\
     (forall k, ~ In k update_texts -> prop k (omit "id" v) = None)).
Proof.
  assert (Hin : In (UpdateDashboardSchema V) (dashboardSchemas V))
    by (unfold dashboardSchemas; simpl; tauto).
  destruct (accepted_property_by_property_parts o Hin) as [Hiff Heach].
  split; [split|].
  - intros Hv0. pose proof (proj1 Hiff Hv0) as Hv. split.
    + apply (Hv "id" _ (or_introl eq_refl)).
    + unfold update_texts.
      repeat (constructor;
        [ eapply accepts_optional_text; apply Hv; simpl; tauto |]).
      constructor.
  - intros [Hid Htexts]. apply (proj2 Hiff). intros k s Hks.
    unfold update_texts in Htexts.
    repeat match goal with
           | H : Forall _ (_ :: _) |- _ => inversion H; clear H; subst
           end.
    cbn [shape UpdateDashboardSchema z_object In] in Hks.
    repeat (destruct Hks as [E | Hks]; [inversion E; subst; clear E|]);
      try contradiction;
      first [ exact Hid | apply accepts_optional_text; assumption ].
  - intros v Hv. split; [intros b log; reflexivity|]. split.
    + intros k Hk.
      assert (Hne : k <> "id").
      { intros ->. unfold update_texts in Hk. simpl in Hk. intuition discriminate. }
      rewrite (prop_omit_other _ Hne).
      unfold update_texts in Hk. cbn [In] in Hk.
      repeat (destruct Hk as [<- | Hk]); try contradiction;
        eapply validated_optional_text; apply (Heach v Hv); simpl; tauto.
    + intros k Hk. destruct (String.eqb k "id") eqn:E.
      * apply String.eqb_eq in E. subst k. apply prop_omit_same.
      * apply String.eqb_neq in E. rewrite (prop_omit_other _ E).
        cbn [safeParse] in Hv. eapply parse_shape_undeclared; [exact Hv|].
        cbn. unfold update_texts in Hk. simpl in Hk. intuition congruence.
Qed.

(** X8.  [CreateDashboardSchema] accepts an object exactly when its [name]
    is a string that is not empty, each of [icon], [note], [color] and
    [date_created] is absent or a string, and [user_created] is absent or
    acceptable to the shared UUID schema; the name and the four texts
    come out as they went in. *)
Theorem create_schema_characterized (o : obj) :
  ((exists v, safeParse (CreateDashboardSchema V) (JObj o) = success v) <->
   (exists name, prop "name" o = Some (JStr name) /\ name <> EmptyString) /\
   Forall (fun k => text_or_absent (prop k o)) create_texts /\
   absent_or_accepted (UuidSchema V) (prop "user_created" o)) /\
  (forall v, safeParse (CreateDashboardSchema V) (JObj o) = success v ->
     forall k, In k ("name" :: create_texts) -> prop k v = prop k o).
Proof.
  assert (Hin : In (CreateDashboardSchema V) (dashboardSchemas V))
    by (unfold dashboardSchemas; simpl; tauto).
  destruct (accepted_property_by_property_parts o Hin) as [Hiff Heach].
  split; [split|].
  - intros Hv0. pose proof (proj1 Hiff Hv0) as Hv. split; [|split].
    + destruct (Hv "name" _ (or_introl eq_refl)) as [out Hout].
      unfold validated_by in Hout.
      destruct (prop "name" o) as [x|]; [|discriminate Hout].
      destruct Hout as (y & Hy & _). destruct x; cbn in Hy; try discriminate Hy.
      destruct s as [|c s]; [discriminate Hy|].
      eexists. split; [reflexivity | discriminate].
    + unfold create_texts.
      repeat (constructor;
        [ eapply accepts_optional_text; apply Hv; simpl; tauto |]).
      constructor.
    + assert (Hu : accepts
                (describe (optional (UuidSchema V)) "User that created the dashboard (UUID)")
                (prop "user_created" o)) by (apply Hv; simpl; tauto).
      destruct Hu as [out Hout]. unfold validated_by in Hout.
      unfold absent_or_accepted.
      destruct (prop "user_created" o) as [x|]; [|exact I].
      destruct Hout as (y & Hy & _). exists y. exact Hy.
  - intros ([name [Hname Hne]] & Htexts & Huser). apply (proj2 Hiff). intros k s Hks.
    unfold create_texts in Htexts.
    repeat match goal with
           | H : Forall _ (_ :: _) |- _ => inversion H; clear H; subst
           end.
    cbn [shape CreateDashboardSchema z_object In] in Hks.
    repeat (destruct Hks as [E | Hks]; [inversion E; subst; clear E|]);
      try contradiction;
      try (apply accepts_optional_text; assumption).
    + unfold accepts, validated_by. rewrite Hname.
      destruct name as [|c name]; [congruence|].
      eexists. eexists. split; reflexivity.
    + unfold accepts, validated_by. unfold absent_or_accepted in Huser.
      destruct (prop "user_created" o) as [x|].
      * destruct Huser as [y Hy]. exists (Some y), y. split; [exact Hy | reflexivity].
      * eexists. reflexivity.
  - intros v Hv k Hk. unfold create_texts in Hk. cbn [In] in Hk.
    destruct Hk as [<- | Hk].
    + assert (Hn : validated_by (describe (z_string_min 1) "Name of the dashboard")
                     (prop "name" o) (prop "name" v))
        by (apply (Heach v Hv); simpl; tauto).
      unfold validated_by in Hn.
      destruct (prop "name" o) as [x|]; [|discriminate Hn].
      destruct Hn as (y & Hy & ->). destruct x; cbn in Hy; try discriminate Hy.
      destruct (String.length s); inversion Hy. reflexivity.
    + repeat (destruct Hk as [<- | Hk]); try contradiction;
        eapply validated_optional_text; apply (Heach v Hv); simpl; tauto.
Qed.

(** X9.  For every object [GetDashboardSchema] accepts, the handler of
    [get_dashboard] sends the validated id and, beside it, an object that
    holds what the shared validators made of [fields] and [meta] and no
    other property. *)
Theorem get_sends_fields_and_meta_only (o v : obj) :
  safeParse (GetDashboardSchema V) (JObj o) = success v ->
  (forall (b : backend) (log : list call),
     handler (get_dashboard_config V) (spy b) v log
     = invoke b "getDashboard" [prop "id" v; Some (JObj (omit "id" v))] log) /\
  validated_by (UuidSchema V) (prop "id" o) (prop "id" v) /\
  validated_by (FieldsSchema V) (prop "fields" o) (prop "fields" (omit "id" v)) /\
  validated_by (MetaSchema V) (prop "meta" o) (prop "meta" (omit "id" v)) /\
  (forall k, k <> "fields" -> k <> "meta" -> prop k (omit "id" v) = None).
Proof.
  intros Hv.
  assert (Hin : In (GetDashboardSchema V) (dashboardSchemas V))
    by (unfold dashboardSchemas; simpl; tauto).
  destruct (accepted_property_by_property_parts o Hin) as [_ Heach].
  specialize (Heach v Hv).
  split; [intros b log; reflexivity|]. split; [|split; [|split]].
  - apply (Heach "id" (describe (UuidSchema V) "Dashboard ID (UUID)")). simpl. tauto.
  - rewrite prop_omit_other by discriminate. apply Heach. simpl. tauto.
  - rewrite prop_omit_other by discriminate. apply Heach. simpl. tauto.
  - intros k Hf Hm. destruct (String.eqb k "id") eqn:E.
    + apply String.eqb_eq in E. subst k. apply prop_omit_same.
    + apply String.eqb_neq in E. rewrite (prop_omit_other _ E).
      cbn [safeParse] in Hv. eapply parse_shape_undeclared; [exact Hv|].
      cbn. intuition congruence.
Qed.

(** X10.  [list_dashboards] invents no defaults of its own: when the
    shared validators make nothing of an absent property, an object with
    none of the seven list parameters is accepted as the empty object,
    which the handler sends to the backend as it is. *)
Theorem list_invents_no_defaults (o : obj) :
  (forall s, In s [FieldsSchema V; FilterSchema V; SearchSchema V; SortSchema V;
                   LimitSchema V; OffsetSchema V; MetaSchema V] ->
             parse_undefined s = success None) ->
  (forall k, In k (declared (ListDashboardsSchema V)) -> prop k o = None) ->
  safeParse (ListDashboardsSchema V) (JObj o) = success [] /\
  (forall (b : backend) (log : list call),
     handler (list_dashboards_config V) (spy b) [] log
     = invoke b "listDashboards" [Some (JObj [])] log).
Proof.
  intros Hu Ho. split; [|intros b log; reflexivity].
  cbn [safeParse]. rewrite (@parse_shape_agree _ o []).
  - cbn [shape ListDashboardsSchema z_object parse_shape].
    unfold parse_property. cbn [prop].
    rewrite !Hu by (simpl; tauto). reflexivity.
  - intros k Hk. rewrite (Ho k Hk). reflexivity.
Qed.

(** X11.  [UpdateDashboardsSchema] requires an array and validates each of
    its elements as [update_dashboard] would; when the shared UUID schema
    does not accept an absent id, every element that reaches the backend
    carries its id, which the handler of [update_dashboards], unlike that
    of [update_dashboard], leaves inside the element. *)
Theorem bulk_update_elements_keep_their_id (input : json) (v : obj) :
  (exists iss, parse_undefined (UuidSchema V) = failure iss) ->
  safeParse (UpdateDashboardsSchema V) input = success v ->
  exists o items outs,
    input = JObj o /\
    prop "dashboards" o = Some (JArr items) /\
    v = [("dashboards", JArr outs)] /\
    Forall2 (fun x y => exists yo id,
               y = JObj yo /\
               safeParse (UpdateDashboardSchema V) x = success yo /\
               prop "id" yo = Some id)
            items outs /\
    (forall (b : backend) (log : list call),
       handler (update_dashboards_config V) (spy b) v log
       = invoke b "updateDashboards" [Some (JArr outs)] log).
Proof.
  intros [iss Hu] H.
  destruct input as [ | | | | |o]; cbn [safeParse] in H; try discriminate H.
  apply parse_wrapper_shape
    with (element := as_type (UpdateDashboardSchema V)) in H;
    [ | reflexivity | eexists; reflexivity ].
  destruct H as (items & outs & Hw & -> & Hitems).
  exists o, items, outs.
  split; [reflexivity|]. split; [exact Hw|]. split; [reflexivity|]. split.
  - eapply Forall2_impl; [|exact Hitems].
    intros x y Hxy. cbn [parse_value as_type] in Hxy.
    destruct (safeParse (UpdateDashboardSchema V) x) as [yo|] eqn:E; [|discriminate Hxy].
    inversion Hxy.
    destruct x as [ | | | | |xo]; cbn [safeParse] in E; try discriminate E.
    pose proof E as Hfirst.
    apply parse_shape_first in Hfirst; [|simpl; intuition discriminate].
    unfold validated_by in Hfirst. cbn [describe parse_value parse_undefined] in Hfirst.
    destruct (prop "id" xo) as [x'|].
    + destruct Hfirst as (id & _ & Hid). exists yo, id. auto.
    + rewrite Hu in Hfirst. discriminate Hfirst.
  - intros b log. reflexivity.
Qed.

End DashboardSchemas.

(* ================================================================= *)
(** ** The statements at concrete inputs *)

Import Fixture.

Ltac member := unfold allTools, dashboardTools, panelTools; cbn [app In]; tauto.

(** [get_dashboard] on [{ id: dash-1 }], the backend answering
    [{ data: [] }]. *)
Lemma result_text_of_a_validated_call_witness :
  let t := get_dashboard lenient show_error in
  let args := JObj [("id", JStr "dash-1")] in
  let r := JObj [("data", JArr [])] in
  In t (allTools lenient show_error) /\
  parse (inputSchema t) args = Resolved [("id", JStr "dash-1")] /\
  exists c,
    snd (handler t (spy empty_handed) args []) = ([] ++ [c])%list /\
    (empty_handed [] c = Resolved r ->
     match successMessage t with
     | None =>
         fst (handler t (spy empty_handed) args [])
         = Resolved (textResult (JSON_stringify r))
     | Some format =>
         exists m, format [("id", JStr "dash-1")] = Resolved m /\
                   fst (handler t (spy empty_handed) args []) = Resolved (textResult m)
     end).
Proof.
  intros t args r. split; [member|]. split; [reflexivity|].
  apply (@result_text_of_a_validated_call lenient show_error t empty_handed args
           [("id", JStr "dash-1")] [] r); [member | reflexivity].
Defined.

(** C1 fails as stated on the delete tools: [delete_dashboard] on
    [{ id: dash-1 }] makes its single call, the backend answers
    [{ success: true }], and the text of the result is the success
    message, not the serialized response. *)
Lemma delete_answers_with_its_message :
  let t := delete_dashboard lenient show_error in
  let args := JObj [("id", JStr "dash-1")] in
  let c := {| method := "deleteDashboard"; arguments := [Some (JStr "dash-1")] |} in
  let r := JObj [("success", JBool true)] in
  In t (allTools lenient show_error) /\
  parse (inputSchema t) args = Resolved [("id", JStr "dash-1")] /\
  handler t (spy agreeing) args []
  = (Resolved (textResult "Dashboard dash-1 deleted successfully"), [c]) /\
  agreeing [] c = Resolved r /\
  fst (handler t (spy agreeing) args []) <> Resolved (textResult (JSON_stringify r)).
Proof.
  intros t args c r. split; [member|].
  split; [reflexivity|]. split; [reflexivity|]. split; [reflexivity|].
  vm_compute. discriminate.
Qed.

(** [get_dashboard] under the lenient validators, on an object without
    an id. *)
Lemma validation_guards_the_backend_witness :
  let t := get_dashboard lenient show_error in
  In t (allTools lenient show_error) /\
  (match parse (inputSchema t) (JObj []) with
   | Threw e =>
       handler t (spy agreeing) (JObj []) []
       = (Resolved (errorResult (show_error e)), [])
   | Resolved v =>
       exists c, snd (handler t (spy agreeing) (JObj []) []) = ([] ++ [c])%list /\
                 passes_through v (arguments c)
   end /\
   ((exists iss, parse_undefined (UuidSchema lenient) = failure iss) ->
    ~ In (name t) ["list_dashboards"; "list_panels"] ->
    exists e, parse (inputSchema t) (JObj []) = Threw e)).
Proof.
  intros t. split; [member|].
  apply (@validation_guards_the_backend lenient show_error t agreeing (JObj []) []).
  member.
Defined.

(** [update_dashboard] on a valid object, the backend rejecting the
    call. *)
Lemma backend_failure_is_caught_witness :
  let t := update_dashboard lenient show_error in
  let args := JObj [("id", JStr "dash-1"); ("name", JStr "Updated Dashboard")] in
  let e := Rejected (JStr "Service Unavailable") in
  In t (allTools lenient show_error) /\
  parse (inputSchema t) args
  = Resolved [("id", JStr "dash-1"); ("name", JStr "Updated Dashboard")] /\
  exists c,
    snd (handler t (spy failing) args []) = ([] ++ [c])%list /\
    (failing [] c = Threw e ->
     fst (handler t (spy failing) args [])
     = Resolved {| content := [{| type := "text"; text := show_error e |}];
                   isError := true |}).
Proof.
  intros t args e. split; [member|]. split; [reflexivity|].
  apply (@backend_failure_is_caught lenient show_error t failing args
           [("id", JStr "dash-1"); ("name", JStr "Updated Dashboard")] [] e);
    [member | reflexivity].
Defined.

Lemma uniform_descriptors_witness :
  let t := delete_dashboards show_error in
  In t (allTools lenient show_error) /\
  (name t <> EmptyString /\
   description t <> EmptyString /\
   toolsets t <> [] /\
   ((exists format, successMessage t = Some format) <-> In (name t) delete_tools)).
Proof.
  intros t. split; [member|].
  apply (@uniform_descriptors lenient show_error t). member.
Defined.


(** [update_dashboard] on the object of its test-suite: the one call is
    [updateDashboard(dash-1, { name, color })]. *)
Lemma exactly_one_backend_call_witness :
  let t := update_dashboard lenient show_error in
  let v := [("id", JStr "dash-1"); ("name", JStr "Updated Dashboard");
            ("color", JStr "#4CAF50")] in
  In t (allTools lenient show_error) /\
  parse (inputSchema t) (JObj v) = Resolved v /\
  exists c,
    snd (handler t (spy failing) (JObj v) []) = ([] ++ [c])%list /\
    method c = camelCase (name t) /\
    reshaped v (name t) (arguments c) /\
    c = {| method := "updateDashboard";
           arguments := [Some (JStr "dash-1");
                         Some (JObj [("name", JStr "Updated Dashboard");
                                     ("color", JStr "#4CAF50")])] |}.
Proof.
  intros t v. split; [member|]. split; [reflexivity|].
  destruct (@exactly_one_backend_call lenient show_error t failing (JObj v) v [])
    as (c & Htrace & Hmethod & Hargs); [member | reflexivity |].
  exists c. split; [exact Htrace|]. split; [exact Hmethod|]. split; [exact Hargs|].
  vm_compute in Htrace. injection Htrace as Hc. symmetry. exact Hc.
Defined.

Lemma one_tool_per_operation_witness :
  let t := list_dashboards lenient show_error in
  In t (allTools lenient show_error) /\
  parse (inputSchema t) (JObj []) = Resolved [] /\
  exists c, snd (handler t (spy empty_handed) (JObj []) []) = ([] ++ [c])%list /\
            method c = camelCase (name t).
Proof.
  intros t. split; [member|]. split; [reflexivity|].
  apply (proj2 (proj2 (proj2 (proj2 (one_tool_per_operation lenient show_error))))
           t empty_handed (JObj []) [] []);
    [member | reflexivity].
Defined.

(** [update_dashboard] on the object of its test-suite. *)
Lemma id_is_split_off_witness :
  handler (update_dashboard_config lenient) (spy agreeing)
    [("id", JStr "dash-1"); ("name", JStr "Updated Dashboard");
     ("color", JStr "#4CAF50")] []
  = invoke agreeing "updateDashboard"
      [Some (JStr "dash-1");
       Some (JObj [("name", JStr "Updated Dashboard"); ("color", JStr "#4CAF50")])] [].
Proof.
  exact (proj1 (proj2 (@id_is_split_off lenient agreeing
           [("id", JStr "dash-1"); ("name", JStr "Updated Dashboard");
            ("color", JStr "#4CAF50")] []))).
Defined.


Lemma create_dashboard_requires_a_name_witness :
  (1 <= String.length "Minimal Dashboard")%nat /\
  safeParse (CreateDashboardSchema lenient) (JObj [("name", JStr "Minimal Dashboard")])
  = success [("name", JStr "Minimal Dashboard")].
Proof.
  split; [simpl; lia|].
  apply (proj1 (proj2 (create_dashboard_requires_a_name lenient))).
  simpl; lia.
Defined.

(* ----------------------------------------------------------------- *)
(** *** The dashboard schemas at concrete inputs *)

Lemma lenient_is_idempotent : idempotent_validators lenient.
Proof.
  unfold idempotent_validators, lenient; cbn.
  repeat (apply Forall_cons;
    [ first [ apply idempotent_z_string
            | apply idempotent_optional;
              first [ apply idempotent_z_array, idempotent_z_string
                    | apply idempotent_z_record
                    | apply idempotent_z_string
                    | apply idempotent_z_number ] ] |]).
  apply Forall_nil.
Defined.

Ltac schema_member := unfold dashboardSchemas; cbn [In]; tauto.

Lemma validation_is_idempotent_witness :
  let input := JObj [("dashboards",
                      JArr [JObj [("name", JStr "Dashboard 1"); ("stray", JNull)]])] in
  let v := [("dashboards", JArr [JObj [("name", JStr "Dashboard 1")]])] in
  idempotent_validators lenient /\
  In (CreateDashboardsSchema lenient) (dashboardSchemas lenient) /\
  safeParse (CreateDashboardsSchema lenient) input = success v /\
  safeParse (CreateDashboardsSchema lenient) (JObj v) = success v.
Proof.
  intros input v. split; [exact lenient_is_idempotent|].
  split; [schema_member|]. split; [reflexivity|].
  apply (@validation_is_idempotent lenient (CreateDashboardsSchema lenient) input v);
    [exact lenient_is_idempotent | schema_member | reflexivity].
Defined.

(** Three ids, one of them twice, beside a stray property: the array is
    put out and sent as given and the message says [3]. *)
Lemma bulk_delete_takes_any_strings_witness :
  let ids := ["dash-2"; "dash-1"; "dash-2"] in
  let input := JObj [("stray", JBool true); ("ids", JArr (map JStr ids))] in
  let v := [("ids", JArr [JStr "dash-2"; JStr "dash-1"; JStr "dash-2"])] in
  (exists o ids', input = JObj o /\
                  property "ids" o (Some (JArr (map JStr ids'))) /\
                  v = [("ids", JArr (map JStr ids'))]) /\
  safeParse DeleteDashboardsSchema input = success v /\
  handler delete_dashboards_config (spy agreeing) v []
  = (Resolved (JObj [("success", JBool true)]),
     [{| method := "deleteDashboards";
         arguments := [Some (JArr [JStr "dash-2"; JStr "dash-1"; JStr "dash-2"])] |}]) /\
  successMessage delete_dashboards_config v
  = Resolved "3 dashboards deleted successfully".
Proof.
  intros ids input v.
  assert (H : exists o ids', input = JObj o /\
                  property "ids" o (Some (JArr (map JStr ids'))) /\
                  v = [("ids", JArr (map JStr ids'))]).
  { exists [("stray", JBool true); ("ids", JArr (map JStr ids))], ids.
    split; [reflexivity|]. split; [|reflexivity].
    apply property_later; [discriminate | apply property_here]. }
  destruct (bulk_delete_takes_any_strings input v) as [Hiff Hsend].
  destruct (Hsend ids agreeing []) as (Hcall & digits & Hdigits & Hmessage).
  split; [exact H|]. split; [exact (proj2 Hiff H)|]. split; [exact Hcall|].
  rewrite (reads_as_unique Hdigits (string_of_nat_reads_as 3)) in Hmessage.
  exact Hmessage.
Defined.

Lemma bulk_create_validates_each_witness :
  let input := JObj [("dashboards",
                      JArr [JObj [("name", JStr "Dashboard 1"); ("icon", JStr "dashboard")];
                            JObj [("name", JStr "Dashboard 2")]])] in
  let v := [("dashboards",
             JArr [JObj [("name", JStr "Dashboard 1"); ("icon", JStr "dashboard")];
                   JObj [("name", JStr "Dashboard 2")]])] in
  safeParse (CreateDashboardsSchema lenient) input = success v /\
  exists o items outs,
    input = JObj o /\
    prop "dashboards" o = Some (JArr items) /\
    v = [("dashboards", JArr outs)] /\
    Forall2 (fun x y => exists yo name,
               y = JObj yo /\
               safeParse (CreateDashboardSchema lenient) x = success yo /\
               prop "name" yo = Some (JStr name) /\ name <> EmptyString)
            items outs /\
    (forall (b : backend) (log : list call),
       handler (create_dashboards_config lenient) (spy b) v log
       = invoke b "createDashboards" [Some (JArr outs)] log).
Proof.
  intros input v. split; [reflexivity|].
  apply (@bulk_create_validates_each lenient input v). reflexivity.
Defined.

(** An update with an empty name. *)
Lemma update_schema_characterized_witness :
  let o := [("id", JStr "dash-1"); ("name", JStr EmptyString)] in
  (accepts (UuidSchema lenient) (prop "id" o) /\
   Forall (fun k => text_or_absent (prop k o)) update_texts) /\
  exists v, safeParse (UpdateDashboardSchema lenient) (JObj o) = success v.
Proof.
  intros o.
  assert (H : accepts (UuidSchema lenient) (prop "id" o) /\
              Forall (fun k => text_or_absent (prop k o)) update_texts).
  { split.
    - exists (Some (JStr "dash-1")), (JStr "dash-1"). split; reflexivity.
    - unfold update_texts. repeat (apply Forall_cons; [exact I|]). apply Forall_nil. }
  split; [exact H|].
  apply (proj2 (proj1 (@update_schema_characterized lenient o))). exact H.
Defined.

(** A creation with an icon that is not a string. *)
Lemma create_schema_characterized_witness :
  let o := [("name", JStr "Sales"); ("icon", JNum 5)] in
  ~ Forall (fun k => text_or_absent (prop k o)) create_texts /\
  ~ exists v, safeParse (CreateDashboardSchema lenient) (JObj o) = success v.
Proof.
  intros o.
  assert (H : ~ Forall (fun k => text_or_absent (prop k o)) create_texts).
  { intros HF. inversion HF as [|? ? Hicon _]. exact Hicon. }
  split; [exact H|].
  intros Hv. apply H.
  apply (proj1 (proj1 (@create_schema_characterized lenient o)) Hv).
Defined.

Lemma get_sends_fields_and_meta_only_witness :
  let o := [("id", JStr "dash-1"); ("fields", JArr [JStr "id"; JStr "name"]);
            ("meta", JStr "total_count"); ("stray", JBool true)] in
  let v := [("id", JStr "dash-1"); ("fields", JArr [JStr "id"; JStr "name"]);
            ("meta", JStr "total_count")] in
  safeParse (GetDashboardSchema lenient) (JObj o) = success v /\
  ((forall (b : backend) (log : list call),
      handler (get_dashboard_config lenient) (spy b) v log
      = invoke b "getDashboard" [prop "id" v; Some (JObj (omit "id" v))] log) /\
   validated_by (UuidSchema lenient) (prop "id" o) (prop "id" v) /\
   validated_by (FieldsSchema lenient) (prop "fields" o) (prop "fields" (omit "id" v)) /\
   validated_by (MetaSchema lenient) (prop "meta" o) (prop "meta" (omit "id" v)) /\
   (forall k, k <> "fields" -> k <> "meta" -> prop k (omit "id" v) = None)).
Proof.
  intros o v. split; [reflexivity|].
  apply (@get_sends_fields_and_meta_only lenient o v). reflexivity.
Defined.

Lemma list_invents_no_defaults_witness :
  let o := [("stray", JNum 1)] in
  (forall s, In s [FieldsSchema lenient; FilterSchema lenient; SearchSchema lenient;
                   SortSchema lenient; LimitSchema lenient; OffsetSchema lenient;
                   MetaSchema lenient] ->
             parse_undefined s = success None) /\
  (forall k, In k (declared (ListDashboardsSchema lenient)) -> prop k o = None) /\
  (safeParse (ListDashboardsSchema lenient) (JObj o) = success [] /\
   (forall (b : backend) (log : list call),
      handler (list_dashboards_config lenient) (spy b) [] log
      = invoke b "listDashboards" [Some (JObj [])] log)).
Proof.
  intros o.
  assert (H1 : forall s, In s [FieldsSchema lenient; FilterSchema lenient;
                   SearchSchema lenient; SortSchema lenient; LimitSchema lenient;
                   OffsetSchema lenient; MetaSchema lenient] ->
             parse_undefined s = success None).
  { intros s Hs. cbn in Hs.
    repeat (destruct Hs as [<- | Hs]; [reflexivity|]). contradiction. }
  assert (H2 : forall k, In k (declared (ListDashboardsSchema lenient)) ->
                         prop k o = None).
  { intros k Hk. cbn in Hk.
    repeat (destruct Hk as [<- | Hk]; [reflexivity|]). contradiction. }
  split; [exact H1|]. split; [exact H2|].
  apply (@list_invents_no_defaults lenient o H1 H2).
Defined.

Lemma bulk_update_elements_keep_their_id_witness :
  let input := JObj [("dashboards",
                      JArr [JObj [("id", JStr "dash-1"); ("name", JStr "Updated 1")];
                            JObj [("id", JStr "dash-2"); ("color", JStr "#FF9800")]])] in
  let v := [("dashboards",
             JArr [JObj [("id", JStr "dash-1"); ("name", JStr "Updated 1")];
                   JObj [("id", JStr "dash-2"); ("color", JStr "#FF9800")]])] in
  (exists iss, parse_undefined (UuidSchema lenient) = failure iss) /\
  safeParse (UpdateDashboardsSchema lenient) input = success v /\
  exists o items outs,
    input = JObj o /\
    prop "dashboards" o = Some (JArr items) /\
    v = [("dashboards", JArr outs)] /\
    Forall2 (fun x y => exists yo id,
               y = JObj yo /\
               safeParse (UpdateDashboardSchema lenient) x = success yo /\
               prop "id" yo = Some id)
            items outs /\
    (forall (b : backend) (log : list call),
       handler (update_dashboards_config lenient) (spy b) v log
       = invoke b "updateDashboards" [Some (JArr outs)] log).
Proof.
  intros input v.
  assert (H : exists iss, parse_undefined (UuidSchema lenient) = failure iss)
    by (eexists; reflexivity).
  split; [exact H|]. split; [reflexivity|].
  apply (@bulk_update_elements_keep_their_id lenient input v H). reflexivity.
Defined.
